(** * The room broker of the signaling server

    A shallow embedding of [signaling-server.js]: the registry [rooms]
    (a [Map] from room key to a [Set] of WebSockets), the [message] and
    [close] handlers registered on each connection, and the helper
    [broadcast], with what they use of the language: [JSON.stringify],
    the conversion to string of the log line, truthiness, and the
    identity of objects.  The two copies of the server in the repository
    differ only in how the listening port is chosen; the broker is the
    same. *)

From Stdlib Require Import Floats.SpecFloat.
From stdpp Require Import gmap strings list fin_maps.

Open Scope string_scope.
Open Scope list_scope.
Open Scope nat_scope.
Set Warnings "-register-all".

(** ** JavaScript values *)

(** A WebSocket object is known by its reference. *)
Definition conn := nat.

(** [WebSocket.CONNECTING], [OPEN], [CLOSING], [CLOSED]. *)
Inductive ReadyState := CONNECTING | OPEN | CLOSING | CLOSED.

(** What [JSON.parse] returns.  An object is its own properties in
    enumeration order, each name once. *)
Inductive json :=
| JNull
| JBool (b : bool)
| JNum (x : spec_float)
| JStr (s : string)
| JArr (items : list json)
| JObj (fields : list (string * json)).

(** What [JSON.stringify] returns: a JSON text, kept as its syntax tree.
    The text has no insignificant white space, so the tree determines it;
    a number literal is the shortest decimal that reads back as the
    double, an object lists its members in the order of the properties. *)
Inductive text :=
| TNull
| TTrue
| TFalse
| TNumber (x : spec_float)
| TString (s : string)
| TArray (items : list text)
| TObject (fields : list (string * text)).

(** [JSON.stringify(value)] for a value that [JSON.parse] made or that is
    an object literal of strings.  A number that is not finite is written
    [null], and either zero is written [0].  A property [toJSON] is called
    only if it is a function, which nothing parsed is. *)
Fixpoint JSON_stringify (value : json) : text :=
  match value with
  | JNull => TNull
  | JBool true => TTrue
  | JBool false => TFalse
  | JNum (S754_finite s m e) => TNumber (S754_finite s m e)
  | JNum (S754_zero _) => TNumber (S754_zero false)
  | JNum _ => TNull
  | JStr s => TString s
  | JArr items => TArray (map JSON_stringify items)
  | JObj fields => TObject (map (λ kv, (kv.1, JSON_stringify kv.2)) fields)
  end.

(** The value a JSON text stands for, which is what the peer that
    receives the text reads from it. *)
Fixpoint text_value (t : text) : json :=
  match t with
  | TNull => JNull
  | TTrue => JBool true
  | TFalse => JBool false
  | TNumber x => JNum x
  | TString s => JStr s
  | TArray items => JArr (map text_value items)
  | TObject fields => JObj (map (λ kv, (kv.1, text_value kv.2)) fields)
  end.

(** Every number in the value is finite and is not the negative zero. *)
Fixpoint exact (value : json) : bool :=
  match value with
  | JNum (S754_finite _ _ _) | JNum (S754_zero false) => true
  | JNum _ => false
  | JArr items => forallb exact items
  | JObj fields => forallb (λ kv, exact kv.2) fields
  | _ => true
  end.

(** What the variable [room] and the property [ws.roomId] hold.  A number
    is a double up to SameValueZero (negative zero is held as zero): the
    value is only tested for truthiness and used as a key of the [Map], and
    neither tells the two zeros apart.  An array or object is held by
    reference. *)
Inductive JSValue :=
| undefined
| null
| boolean (b : bool)
| number (x : spec_float)
| str (s : string)
| object (ref : nat).

Global Instance ReadyState_eq_dec : EqDecision ReadyState.
Proof. solve_decision. Defined.

Global Instance spec_float_eq_dec : EqDecision spec_float.
Proof. solve_decision. Defined.

Global Instance JSValue_eq_dec : EqDecision JSValue.
Proof. solve_decision. Defined.

Definition spec_float_code (x : spec_float) : bool + bool + (bool * positive * Z) + unit :=
  match x with
  | S754_zero s => inl (inl (inl s))
  | S754_infinity s => inl (inl (inr s))
  | S754_finite s m e => inl (inr (s, m, e))
  | S754_nan => inr ()
  end.

Definition spec_float_decode (c : bool + bool + (bool * positive * Z) + unit) : spec_float :=
  match c with
  | inl (inl (inl s)) => S754_zero s
  | inl (inl (inr s)) => S754_infinity s
  | inl (inr (s, m, e)) => S754_finite s m e
  | inr _ => S754_nan
  end.

Global Instance spec_float_countable : Countable spec_float.
Proof.
  apply (inj_countable' spec_float_code spec_float_decode).
  intros []; reflexivity.
Defined.

Definition JSValue_code (v : JSValue) : bool + (bool + spec_float) + (string + nat) :=
  match v with
  | undefined => inl (inl false)
  | null => inl (inl true)
  | boolean b => inl (inr (inl b))
  | number x => inl (inr (inr x))
  | str s => inr (inl s)
  | object r => inr (inr r)
  end.

Definition JSValue_decode (c : bool + (bool + spec_float) + (string + nat)) : JSValue :=
  match c with
  | inl (inl false) => undefined
  | inl (inl true) => null
  | inl (inr (inl b)) => boolean b
  | inl (inr (inr x)) => number x
  | inr (inl s) => str s
  | inr (inr r) => object r
  end.

Global Instance JSValue_countable : Countable JSValue.
Proof.
  apply (inj_countable' JSValue_code JSValue_decode).
  intros []; reflexivity.
Defined.

(** [data.name] for a parsed [data] other than [null]: an own property of
    an object, [undefined] (here [None]) otherwise.  Neither
    [Object.prototype] nor the prototypes of arrays, strings, numbers and
    booleans have a property [type] or [room]. *)
Fixpoint own_property (name : string) (fields : list (string * json)) : option json :=
  match fields with
  | [] => None
  | (k, v) :: rest => if String.eqb k name then Some v else own_property name rest
  end.

Definition property (data : json) (name : string) : option json :=
  match data with
  | JObj fields => own_property name fields
  | _ => None
  end.

(** ToString of a parsed value throws a [TypeError]: an object with an own
    property [toString] has there a value that is no function, and
    [Object.prototype.valueOf] gives back the object; an array is joined,
    which converts every element but [null] in turn.  Everything else
    has a string. *)
Fixpoint ToString_throws (value : json) : bool :=
  match value with
  | JObj fields => existsb (λ kv, String.eqb kv.1 "toString") fields
  | JArr items => existsb ToString_throws items
  | _ => false
  end.

(** The same for a destructured property, [undefined] when absent. *)
Definition interpolation_throws (p : option json) : bool :=
  match p with
  | Some value => ToString_throws value
  | None => false
  end.

(** The value a destructured property is bound to.  [ref] names the object
    when the property is an array or an object. *)
Definition value_of (ref : nat) (p : option json) : JSValue :=
  match p with
  | None => undefined
  | Some JNull => null
  | Some (JBool b) => boolean b
  | Some (JNum (S754_zero _)) => number (S754_zero false)
  | Some (JNum x) => number x
  | Some (JStr s) => str s
  | Some (JArr _) | Some (JObj _) => object ref
  end.

(** [type === literal] for a string literal of the [switch]. *)
Definition strict_equals (p : option json) (literal : string) : bool :=
  match p with
  | Some (JStr s) => String.eqb s literal
  | _ => false
  end.

(** ToBoolean, as [roomId && ...] applies it. *)
Definition truthy (v : JSValue) : bool :=
  match v with
  | undefined | null => false
  | boolean b => b
  | number (S754_zero _) | number S754_nan => false
  | number _ => true
  | str s => negb (String.eqb s EmptyString)
  | object _ => true
  end.

(** ** The [Set] of clients of a room *)

(** A [Set] keeps its elements once each, in insertion order, which is the
    order [forEach] visits them in. *)
Definition Set_add (ws : conn) (s : list conn) : list conn :=
  if decide (ws ∈ s) then s else s ++ [ws].

Definition Set_delete (ws : conn) (s : list conn) : list conn :=
  filter (λ client, client ≠ ws) s.

(** ** The state of the broker *)

(** [rooms] is the module-level [Map]; [roomId] holds the property the
    [join] case stores on a WebSocket (absent until then); [readyState] is
    the transport's property of each WebSocket. *)
Record state := State {
  rooms : gmap JSValue (list conn);
  roomId : gmap conn JSValue;
  readyState : gmap conn ReadyState
}.

Definition initial : state := State ∅ ∅ ∅.

Definition set_rooms (f : gmap JSValue (list conn) → gmap JSValue (list conn)) (st : state) : state :=
  State (f (rooms st)) (roomId st) (readyState st).

Definition set_roomId (ws : conn) (room : JSValue) (st : state) : state :=
  State (rooms st) (<[ws := room]> (roomId st)) (readyState st).

Definition set_readyState (ws : conn) (rs : ReadyState) (st : state) : state :=
  State (rooms st) (roomId st) (<[ws := rs]> (readyState st)).

(** The objects the broker holds on to are the keys of [rooms] and the
    values of [roomId].  An array or object that [JSON.parse] makes is a
    new one, so its reference is none of theirs: [fresh] is the first
    reference above them all. *)
Definition ref_above (v : JSValue) : nat :=
  match v with
  | object ref => S ref
  | _ => 0
  end.

Definition fresh (st : state) : nat :=
  max_list ((ref_above <$> (map_to_list (rooms st)).*1)
            ++ (ref_above <$> (map_to_list (roomId st)).*2)).

(** [ws.roomId], [undefined] while the property is absent. *)
Definition get_roomId (st : state) (ws : conn) : JSValue :=
  default undefined (roomId st !! ws).

(** [client.readyState === WebSocket.OPEN]. *)
Definition is_open (st : state) (client : conn) : bool :=
  bool_decide (readyState st !! client = Some OPEN).

(** The members of a room, none when the key is not in the registry. *)
Definition members (st : state) (room : JSValue) : list conn :=
  default [] (rooms st !! room).

(** ** Messages the broker sends *)

(** A call [client.send(text)], kept as the receiver and the text. *)
Definition sent := (conn * text)%type.

(** The object literal [{ type: t }]. *)
Definition type_only (t : string) : json := JObj [("type", JStr t)].

(** [JSON.stringify({ type: 'joined' })], and the same for the two
    objects the handlers pass to [broadcast]. *)
Definition joined : text := JSON_stringify (type_only "joined").
Definition ready : text := JSON_stringify (type_only "ready").
Definition leave : text := JSON_stringify (type_only "leave").

(** [broadcast(room, message, sender)]. *)
Definition broadcast (room : JSValue) (message : json) (sender : conn) (st : state) : list sent :=
  match rooms st !! room with
  | Some roomClients =>
      flat_map (λ client,
        if bool_decide (client ≠ sender) && is_open st client
        then [(client, JSON_stringify message)] else []) roomClients
  | None => []
  end.

(** ** What a message asks for *)

(** The message is sent to the [join] case of the [switch]. *)
Definition is_join (data : json) : Prop :=
  strict_equals (property data "type") "join" = true.

(** The message is sent to the [offer], [answer] and [candidate] cases. *)
Definition is_forward (data : json) : Prop :=
  strict_equals (property data "type") "offer"
  || strict_equals (property data "type") "answer"
  || strict_equals (property data "type") "candidate" = true.

(** The room key a message names when it is handled in state [st]. *)
Definition room_of (st : state) (data : json) : JSValue :=
  value_of (fresh st) (property data "room").

(** The property is an array or an object, which a variable holds by
    reference. *)
Definition is_reference (p : option json) : Prop :=
  match p with
  | Some (JArr _) | Some (JObj _) => True
  | _ => False
  end.

(** ** The handlers *)

(** What a handler does: it returns, leaving a state and the messages it
    sent in order, or it throws, which nothing in the server catches. *)
Inductive outcome :=
| Returned (st : state) (out : list sent)
| Thrown.

Section Broker.

(** The frame the transport hands to the [message] handler, and
    [JSON.parse] on it: [None] when it throws a [SyntaxError]. *)
Variable raw : Type.
Variable JSON_parse : raw → option json.

(** The [join] case.  The variable [room] is needed in two forms: as
    [JSON.parse] left it, for the log line, whose template literal turns
    it into a string; and as the value [key] that the [Map] and [roomId]
    see. *)
Definition join (ws : conn) (room : option json) (key : JSValue) (st : state) : outcome :=
  if interpolation_throws room then Thrown
  else
    let st :=
      if bool_decide (is_Some (rooms st !! key)) then st
      else set_rooms (<[key := []]>) st in
    let roomClients := Set_add ws (members st key) in
    let st := set_rooms (<[key := roomClients]>) st in
    let st := set_roomId ws key st in
    if length roomClients =? 1 then Returned st [(ws, joined)]
    else if length roomClients =? 2
    then Returned st (broadcast key (type_only "ready") ws st)
    else Returned st [].

(** [ws.on('message', ...)].  Destructuring [null] throws a [TypeError]
    outside the [try], and so does the log line of the [join] case. *)
Definition on_message (ws : conn) (message : raw) (st : state) : outcome :=
  match JSON_parse message with
  | None => Returned st []
  | Some JNull => Thrown
  | Some data =>
      let type := property data "type" in
      let room := property data "room" in
      if strict_equals type "join" then join ws room (room_of st data) st
      else if strict_equals type "offer" || strict_equals type "answer"
              || strict_equals type "candidate"
      then Returned st (broadcast (room_of st data) data ws st)
      else Returned st []
  end.

(** [ws.on('close', ...)]. *)
Definition on_close (ws : conn) (st : state) : outcome :=
  let roomId := get_roomId st ws in
  if truthy roomId && bool_decide (is_Some (rooms st !! roomId)) then
    let roomClients := Set_delete ws (members st roomId) in
    let st := set_rooms (<[roomId := roomClients]>) st in
    Returned st (broadcast roomId (type_only "leave") ws st)
  else Returned st [].

(** ** Runs of the server *)

(** What happens to the server: a frame arrives on a connection; a
    connection is closed, which the transport records as [CLOSED] before
    it emits [close]; the transport moves a connection to another ready
    state ([OPEN] when it accepts it, [CLOSING] during the closing
    handshake). *)
Inductive event :=
| Message (ws : conn) (message : raw)
| Close (ws : conn)
| Transport (ws : conn) (rs : ReadyState).

Definition step (ev : event) (st : state) : outcome :=
  match ev with
  | Message ws message => on_message ws message st
  | Close ws => on_close ws (set_readyState ws CLOSED st)
  | Transport ws rs => Returned (set_readyState ws rs st) []
  end.

(** The events are handled one at a time; a throw ends the run. *)
Fixpoint run (evs : list event) (st : state) : outcome :=
  match evs with
  | [] => Returned st []
  | ev :: evs =>
      match step ev st with
      | Returned st out =>
          match run evs st with
          | Returned st' out' => Returned st' (out ++ out')
          | Thrown => Thrown
          end
      | Thrown => Thrown
      end
  end.

(** The room a message asks to join, if it is a [join] that parses. *)
Definition join_of (ev : event) (st : state) : option (conn * JSValue) :=
  match ev with
  | Message ws message =>
      match JSON_parse message with
      | Some data =>
          if strict_equals (property data "type") "join"
          then Some (ws, room_of st data)
          else None
      | None => None
      end
  | _ => None
  end.

(** The joins of a run, each with the connection that asked and the key
    it named. *)
Fixpoint joins (evs : list event) (st : state) : list (conn * JSValue) :=
  match evs with
  | [] => []
  | ev :: evs =>
      match step ev st with
      | Returned st' _ => option_list (join_of ev st) ++ joins evs st'
      | Thrown => []
      end
  end.

End Broker.

Arguments Message {raw} ws message.
Arguments Close {raw} ws.
Arguments Transport {raw} ws rs.
Arguments on_message {raw} JSON_parse ws message st.
Arguments step {raw} JSON_parse ev st.
Arguments run {raw} JSON_parse evs st.
Arguments join_of {raw} JSON_parse ev st.
Arguments joins {raw} JSON_parse evs st.

(** ** Frames and states for the examples *)

(** In the examples a frame is given by what [JSON.parse] makes of its
    text: [None] for a text that is not JSON. *)
Definition frame := option json.
Definition frame_parse (message : frame) : option json := message.

Definition join_request (room : string) : json :=
  JObj [("type", JStr "join"); ("room", JStr room)].

Definition join_frame (room : string) : frame := Some (join_request room).

Definition offer_lobby : json :=
  JObj [("type", JStr "offer"); ("room", JStr "lobby"); ("sdp", JStr "v=0")].

(** An offer whose [sdp] was written [1e999], which is read as
    [Infinity]. *)
Definition offer_overflow : json :=
  JObj [("type", JStr "offer"); ("room", JStr "lobby");
        ("sdp", JNum (S754_infinity false))].

(** Connections 1, 2 and 3 are open and nobody has joined anything. *)
Definition idle : state :=
  State ∅ ∅ {[1 := OPEN; 2 := OPEN; 3 := OPEN]}.

(** Connection 1 waits alone in [lobby]. *)
Definition waiting : state :=
  State {[str "lobby" := [1]]} {[1 := str "lobby"]}
        {[1 := OPEN; 2 := OPEN; 3 := OPEN]}.

(** Connection 1 has left [lobby], where it was alone. *)
Definition emptied : state :=
  State {[str "lobby" := []]} {[1 := str "lobby"]}
        {[1 := CLOSED; 2 := OPEN; 3 := OPEN]}.

(** Connections 1 and 2 share [lobby]; connection 3 has joined nothing. *)
Definition paired : state :=
  State {[str "lobby" := [1; 2]]}
        {[1 := str "lobby"; 2 := str "lobby"]}
        {[1 := OPEN; 2 := OPEN; 3 := OPEN]}.

(** Connections 1 and 2 share [lobby] while 3 and 4 share [den]. *)
Definition two_rooms : state :=
  State {[str "lobby" := [1; 2]; str "den" := [3; 4]]}
        {[1 := str "lobby"; 2 := str "lobby"; 3 := str "den"; 4 := str "den"]}
        {[1 := OPEN; 2 := OPEN; 3 := OPEN; 4 := OPEN]}.

(** Connections 1, 2 and 3 are all in [lobby]; 3 is closing. *)
Definition crowded : state :=
  State {[str "lobby" := [1; 2; 3]]}
        {[1 := str "lobby"; 2 := str "lobby"; 3 := str "lobby"]}
        {[1 := OPEN; 2 := OPEN; 3 := CLOSING]}.

(** Connections 1 and 2 share [lobby] and 3 waits alone in [den]. *)
Definition lobby_and_den : state :=
  State {[str "lobby" := [1; 2]; str "den" := [3]]}
        {[1 := str "lobby"; 2 := str "lobby"; 3 := str "den"]}
        {[1 := OPEN; 2 := OPEN; 3 := OPEN]}.

(** A message of a type the [switch] has no case for. *)
Definition ping : json := JObj [("type", JStr "ping"); ("room", JStr "lobby")].

(** A join whose [room] is an object. *)
Definition join_object : json :=
  JObj [("type", JStr "join"); ("room", JObj [("name", JStr "lobby")])].

(** A join whose [room] is an object with a property [toString]. *)
Definition join_unprintable : json :=
  JObj [("type", JStr "join"); ("room", JObj [("toString", JNull)])].

(** Three connections are accepted, then 1 and 2 join [lobby]. *)
Definition pairing : list (event frame) :=
  [Transport 1 OPEN; Transport 2 OPEN; Transport 3 OPEN;
   Message 1 (join_frame "lobby"); Message 2 (join_frame "lobby")].

(** ** What every run keeps *)

(** [J] lists the joins made so far.  Each member set is duplicate-free;
    a member of a room asked to join it and remembers some key; and the
    key a connection remembers is one it asked to join. *)
Record kept (J : list (conn * JSValue)) (st : state) : Prop := Kept {
  kept_NoDup : ∀ k l, rooms st !! k = Some l → NoDup l;
  kept_member : ∀ k l ws, rooms st !! k = Some l → ws ∈ l →
                  (ws, k) ∈ J ∧ is_Some (roomId st !! ws);
  kept_roomId : ∀ ws k, roomId st !! ws = Some k → (ws, k) ∈ J
}.

(** ** Facts about the handlers *)

Section Broker_facts.

Context {raw : Type} (JSON_parse : raw → option json).

Lemma elem_of_broadcast room message sender st client msg :
  (client, msg) ∈ broadcast room message sender st ↔
  client ∈ members st room ∧ client ≠ sender ∧ is_open st client = true
  ∧ msg = JSON_stringify message.
Proof.
  unfold broadcast, members.
  destruct (rooms st !! room) as [roomClients|].
  - rewrite (list_elem_of_In (flat_map _ _)), in_flat_map. simpl. split.
    + intros (c & Hc & Hin). apply list_elem_of_In in Hc.
      destruct (bool_decide (c ≠ sender)) eqn:Hne; simpl in Hin;
        [destruct (is_open st c) eqn:Hop; simpl in Hin|]; try done.
      destruct Hin as [[= -> ->]|[]]. apply bool_decide_eq_true in Hne. done.
    + intros (Hc & Hne & Hop & ->). exists client. split; [by apply list_elem_of_In|].
      rewrite bool_decide_eq_true_2, Hop by done. by left.
  - split; [by intros ?%elem_of_nil | by intros [?%elem_of_nil _]].
Qed.

Lemma is_join_not_forward data : is_join data → ¬ is_forward data.
Proof.
  unfold is_join, is_forward, strict_equals.
  destruct (property data "type") as [[]|]; try done.
  intros ->%String.eqb_eq. done.
Qed.

Lemma is_join_not_null data : is_join data → data ≠ JNull.
Proof. by intros H ->. Qed.

Lemma is_forward_not_null data : is_forward data → data ≠ JNull.
Proof. by intros H ->. Qed.

(** ** New references *)

(** No key of the registry is the object [JSON.parse] has just made. *)
Lemma fresh_not_key st : rooms st !! object (fresh st) = None.
Proof.
  destruct (rooms st !! object (fresh st)) as [l|] eqn:E; [|done].
  assert (S (fresh st) ≤ fresh st); [|lia].
  apply max_list_elem_of_le, elem_of_app. left.
  apply (list_elem_of_fmap_2 ref_above _ (object (fresh st))).
  apply (list_elem_of_fmap_2 fst _ (object (fresh st), l)).
  by apply elem_of_map_to_list.
Qed.

Lemma value_of_reference ref p : is_reference p → value_of ref p = object ref.
Proof. by destruct p as [[]|]. Qed.

(** What is no array and no object has a string, and is the same value
    whatever reference is at hand. *)
Lemma not_reference_prints p : ¬ is_reference p → interpolation_throws p = false.
Proof. by destruct p as [[]|]. Qed.

Lemma value_of_not_reference ref ref' p :
  ¬ is_reference p → value_of ref p = value_of ref' p.
Proof. by destruct p as [[]|]. Qed.

(** A message that names a key of the registry does not name it by an
    array or object. *)
Lemma key_not_reference st data :
  is_Some (rooms st !! room_of st data) → ¬ is_reference (property data "room").
Proof.
  unfold room_of. intros [l Hl] Href.
  rewrite (value_of_reference _ _ Href), fresh_not_key in Hl. done.
Qed.


(** A frame whose text is the JSON literal [null] parses, and the
    handler throws on it: the destructuring is outside the [try]. *)
Lemma on_message_null ws message st :
  JSON_parse message = Some JNull → on_message JSON_parse ws message st = Thrown.
Proof. intros Hp. unfold on_message. by rewrite Hp. Qed.

(** The [message] handler on a [join]. *)
Lemma on_message_join ws message data st :
  JSON_parse message = Some data → is_join data →
  on_message JSON_parse ws message st
  = join ws (property data "room") (room_of st data) st.
Proof.
  intros Hp Hj. unfold on_message. rewrite Hp.
  destruct data; try done; try (by rewrite Hj).
Qed.

(** The [message] handler on an [offer], [answer] or [candidate]. *)
Lemma on_message_forward ws message data st :
  JSON_parse message = Some data → is_forward data →
  on_message JSON_parse ws message st =
    Returned st (broadcast (room_of st data) data ws st).
Proof.
  intros Hp Hf. unfold on_message. rewrite Hp.
  assert (strict_equals (property data "type") "join" = false) as Hj.
  { destruct (strict_equals _ "join") eqn:E; [|done].
    by destruct (is_join_not_forward data). }
  destruct data; try done; by rewrite Hj, Hf.
Qed.

Lemma broadcast_absent room message sender st :
  rooms st !! room = None → broadcast room message sender st = [].
Proof. unfold broadcast. by intros ->. Qed.

(** In a room of two, a broadcast by one reaches the other when it is
    open, and nobody else. *)
Lemma broadcast_pair room message sender peer st l :
  rooms st !! room = Some l → l ≡ₚ [sender; peer] → sender ≠ peer →
  broadcast room message sender st =
    if is_open st peer then [(peer, JSON_stringify message)] else [].
Proof.
  intros Hl Hp Hne. unfold broadcast. rewrite Hl.
  symmetry in Hp. apply Permutation_length_2_inv in Hp as [-> | ->]; simpl;
    rewrite (bool_decide_eq_false_2 (sender ≠ sender)) by naive_solver;
    rewrite (bool_decide_eq_true_2 (peer ≠ sender)) by done; simpl;
    by destruct (is_open st peer).
Qed.

Lemma broadcast_other room message sender peer st :
  rooms st !! room = Some [peer] → sender ≠ peer →
  broadcast room message sender st =
    if is_open st peer then [(peer, JSON_stringify message)] else [].
Proof.
  intros Hl Hne. unfold broadcast. rewrite Hl. simpl.
  rewrite (bool_decide_eq_true_2 (peer ≠ sender)) by done. simpl.
  by destruct (is_open st peer).
Qed.

(** The [join] case in one step, when the log line prints: whether or
    not the room had to be created, the registry ends with the enlarged
    set under the key. *)
Lemma join_unfold ws room key st :
  interpolation_throws room = false →
  join ws room key st =
    let roomClients := Set_add ws (members st key) in
    let st' := State (<[key := roomClients]> (rooms st))
                     (<[ws := key]> (roomId st)) (readyState st) in
    Returned st'
      (if length roomClients =? 1 then [(ws, joined)]
       else if length roomClients =? 2
       then broadcast key (type_only "ready") ws st'
       else []).
Proof.
  intros Hprint. unfold join. rewrite Hprint. case_bool_decide as Hhas.
  - by repeat case_match.
  - assert (rooms st !! key = None) as Hnone.
    { destruct (rooms st !! key) eqn:E; [|done]. destruct Hhas. eauto. }
    unfold members, set_roomId, set_rooms. simpl.
    rewrite lookup_insert_eq, Hnone, insert_insert_eq. simpl.
    by repeat case_match.
Qed.

(** The [join] case returns only when the log line prints. *)
Lemma join_Returned ws room key st st' out :
  join ws room key st = Returned st' out → interpolation_throws room = false.
Proof. unfold join. by destruct (interpolation_throws room). Qed.

Lemma join_Thrown ws room key st :
  join ws room key st = Thrown ↔ interpolation_throws room = true.
Proof.
  destruct (interpolation_throws room) eqn:Hprint.
  - unfold join. by rewrite Hprint.
  - by rewrite join_unfold.
Qed.

Lemma Set_add_new ws s : ws ∉ s → Set_add ws s = s ++ [ws].
Proof. intros H. unfold Set_add. by rewrite decide_False. Qed.

Lemma Set_delete_pair ws peer l :
  l ≡ₚ [ws; peer] → ws ≠ peer → Set_delete ws l = [peer].
Proof.
  intros Hp Hne. unfold Set_delete.
  symmetry in Hp. apply Permutation_length_2_inv in Hp as [-> | ->].
  - rewrite filter_cons_False by naive_solver.
    rewrite filter_cons_True by done. done.
  - rewrite filter_cons_True by done.
    rewrite filter_cons_False by naive_solver. done.
Qed.

(** The [close] handler when the remembered key is truthy and names a
    room of the registry. *)
Lemma on_close_unfold ws st l :
  truthy (get_roomId st ws) = true → rooms st !! get_roomId st ws = Some l →
  on_close ws st =
    let st' := set_rooms (<[get_roomId st ws := Set_delete ws l]>) st in
    Returned st' (broadcast (get_roomId st ws) (type_only "leave") ws st').
Proof.
  intros Ht Hl. unfold on_close, members. rewrite Ht, Hl.
  rewrite bool_decide_eq_true_2 by eauto. reflexivity.
Qed.

(** ** What is written and what is read *)

Lemma json_ind_nested (P : json → Prop) :
  P JNull → (∀ b, P (JBool b)) → (∀ x, P (JNum x)) → (∀ s, P (JStr s)) →
  (∀ items, Forall P items → P (JArr items)) →
  (∀ fields, Forall (λ kv, P kv.2) fields → P (JObj fields)) →
  ∀ value, P value.
Proof.
  intros HNull HBool HNum HStr HArr HObj. fix IH 1.
  intros [|b|x|s|items|fields]; [done..| |].
  - apply HArr. induction items as [|item items IHitems]; constructor; [apply IH | done].
  - apply HObj. induction fields as [|[k v] fields IHfields]; constructor; [apply IH | done].
Qed.

(** The text of a value whose numbers are exact stands for that very
    value: the peer reads the fields that were parsed. *)
Lemma text_value_stringify value :
  exact value = true → text_value (JSON_stringify value) = value.
Proof.
  induction value as [|b|x|s|items IH|fields IH] using json_ind_nested; simpl.
  - done.
  - by destruct b.
  - by destruct x as [[]| | |].
  - done.
  - intros Hx. f_equal. rewrite map_map.
    induction IH as [|item items Hitem _ IHitems]; simpl in *; [done|].
    apply andb_true_iff in Hx as [? ?]. f_equal; eauto.
  - intros Hx. f_equal. rewrite map_map.
    induction IH as [|[k v] fields Hv _ IHfields]; simpl in *; [done|].
    apply andb_true_iff in Hx as [? ?]. f_equal; [f_equal|]; eauto.
Qed.

(** C1, amended. Join sequencing: when connection A sends join for a room
    key R that the log line can print, while R has no members, the broker
    sends [joined] to A and to no other connection; when another
    connection B sends join for R next, the broker sends [ready] to A
    alone if A is open, and sends nothing at all if it is not; either way
    B gets no reply to its join and the room then holds A and B. *)
Theorem join_sequencing st A B R mA dA mB dB :
  A ≠ B → members st R = [] →
  JSON_parse mA = Some dA → is_join dA → room_of st dA = R →
  interpolation_throws (property dA "room") = false →
  JSON_parse mB = Some dB → is_join dB →
  ∃ st1, on_message JSON_parse A mA st = Returned st1 [(A, joined)]
    ∧ members st1 R = [A]
    ∧ (room_of st1 dB = R →
       ∃ st2, on_message JSON_parse B mB st1 =
                Returned st2 (if is_open st1 A then [(A, ready)] else [])
              ∧ members st2 R = [A; B]).
Proof.
  intros Hne Hempty HpA HjA HRA HprintA HpB HjB.
  set (st1 := State (<[R := [A]]> (rooms st)) (<[A := R]> (roomId st))
                    (readyState st)).
  exists st1. split; [|split].
  - rewrite (on_message_join _ _ dA), join_unfold, HRA by done.
    rewrite Hempty. rewrite Set_add_new by apply not_elem_of_nil. reflexivity.
  - unfold members. simpl. by rewrite lookup_insert_eq.
  - intros HRB.
    assert (rooms st1 !! R = Some [A]) as HR1 by (simpl; by rewrite lookup_insert_eq).
    assert (interpolation_throws (property dB "room") = false) as HprintB.
    { apply not_reference_prints, (key_not_reference st1). rewrite HRB. eauto. }
    exists (State (<[R := [A; B]]> (rooms st1)) (<[B := R]> (roomId st1))
                  (readyState st)).
    rewrite (on_message_join _ _ dB), join_unfold, HRB by done.
    unfold members. rewrite HR1. simpl. rewrite !lookup_insert_eq. simpl.
    rewrite Set_add_new by (rewrite list_elem_of_singleton; naive_solver).
    simpl. split; [|done].
    erewrite (broadcast_pair R _ B A); [done| |apply Permutation_swap|done].
    simpl. by rewrite lookup_insert_eq.
Qed.

(** C9. Third join: when connection C sends join for a room key R whose
    member set holds 2 members, C not among them, C is added to the set,
    which then holds 3; C's remembered room key becomes R; and no message
    is sent to any connection.  No other room is touched. *)
Theorem third_join_is_added_silently st C R message data l :
  rooms st !! R = Some l → length l = 2 → C ∉ l →
  JSON_parse message = Some data → is_join data → room_of st data = R →
  ∃ st', on_message JSON_parse C message st = Returned st' []
    ∧ rooms st' !! R = Some (l ++ [C]) ∧ length (l ++ [C]) = 3
    ∧ roomId st' !! C = Some R
    ∧ ∀ k, k ≠ R → rooms st' !! k = rooms st !! k.
Proof.
  intros Hl Hlen HC Hparse Hj HR.
  assert (interpolation_throws (property data "room") = false) as Hprint.
  { apply not_reference_prints, (key_not_reference st). rewrite HR. eauto. }
  exists (State (<[R := l ++ [C]]> (rooms st)) (<[C := R]> (roomId st))
                (readyState st)).
  assert (length (l ++ [C]) = 3) as Hlen3.
  { rewrite length_app, Hlen. reflexivity. }
  split; [|simpl; repeat split].
  - rewrite (on_message_join _ _ data), join_unfold, HR by done.
    unfold members. simpl. rewrite Hl. simpl.
    rewrite Set_add_new by done. simpl. by rewrite Hlen3.
  - by rewrite lookup_insert_eq.
  - done.
  - by rewrite lookup_insert_eq.
  - intros k Hk. by rewrite lookup_insert_ne.
Qed.

(** C7, amended. Disconnect notification: when the member set of room R
    is exactly {A, B}, A's remembered room key is R and R is truthy, A's
    disconnect removes A from the member set, sends B exactly one [leave]
    if B is open and nothing if it is not, and sends A nothing; when the
    disconnecting connection has no remembered room key, or the key it
    remembers is not in the registry, no state changes and nothing is
    sent. *)
Theorem disconnect_notification :
  (∀ st A B R l,
     rooms st !! R = Some l → l ≡ₚ [A; B] → A ≠ B →
     get_roomId st A = R → truthy R = true →
     ∃ st', on_close A st =
              Returned st' (if is_open st B then [(B, leave)] else [])
       ∧ rooms st' = <[R := [B]]> (rooms st) ∧ roomId st' = roomId st)
  ∧ (∀ st ws,
       roomId st !! ws = None ∨ rooms st !! get_roomId st ws = None →
       on_close ws st = Returned st []).
Proof.
  split.
  - intros st A B R l Hl Hp Hne HR Ht. subst R.
    exists (set_rooms (<[get_roomId st A := [B]]>) st).
    rewrite (on_close_unfold A st l) by done. simpl.
    rewrite (Set_delete_pair A B l) by done.
    split; [|done]. f_equal.
    erewrite broadcast_other; [done| |done]. simpl. by rewrite lookup_insert_eq.
  - intros st ws [Hnone | Hnone]; unfold on_close.
    + unfold get_roomId. rewrite Hnone. reflexivity.
    + rewrite Hnone. rewrite bool_decide_eq_false_2 by (by intros [? ?]).
      by rewrite andb_false_r.
Qed.

(** C2, amended. Forwarding: when the member set of room R is exactly
    {A, B} and both connections are open, an offer, answer or candidate
    that A sends with room field R is sent to B, and to nobody else, so
    not back to A, as the text [JSON.stringify] makes of the parsed
    message; the same holds with A and B exchanged.  That text stands for
    exactly the fields that were parsed when every number among them is
    finite and is not the negative zero.  The room state is left as it
    was. *)
Theorem forwarding_between_two st A B R message data l :
  rooms st !! R = Some l → l ≡ₚ [A; B] → A ≠ B →
  is_open st A = true → is_open st B = true →
  JSON_parse message = Some data → is_forward data → room_of st data = R →
  (∃ st', on_message JSON_parse A message st
            = Returned st' [(B, JSON_stringify data)]
          ∧ rooms st' = rooms st ∧ roomId st' = roomId st)
  ∧ (∃ st', on_message JSON_parse B message st
              = Returned st' [(A, JSON_stringify data)]
            ∧ rooms st' = rooms st ∧ roomId st' = roomId st)
  ∧ (exact data = true → text_value (JSON_stringify data) = data).
Proof.
  intros Hl Hp Hne HA HB Hparse Hf HR.
  split; [|split; [|apply text_value_stringify]];
    exists st; (split; [|done]);
    rewrite (on_message_forward _ _ data) by done; rewrite HR.
  - rewrite (broadcast_pair R data A B st l) by done. by rewrite HB.
  - rewrite (broadcast_pair R data B A st l); [by rewrite HA|done| |done].
    rewrite Hp. apply Permutation_swap.
Qed.

(** C3, amended. A foreign room is a no-op only when it is absent: an
    offer, answer or candidate that connection C sends naming room key R
    changes no room state (the registry, every member set and every
    remembered room key stay as they were), and when R is not in the
    registry nothing is sent.  When R is in the registry the message goes
    to every open member of R other than C, whether or not C is a member. *)
Theorem forward_to_absent_room_is_noop st C R message data :
  JSON_parse message = Some data → is_forward data → room_of st data = R →
  ∃ st' out, on_message JSON_parse C message st = Returned st' out
    ∧ rooms st' = rooms st ∧ roomId st' = roomId st
    ∧ (rooms st !! R = None → out = [])
    ∧ (∀ client msg, (client, msg) ∈ out ↔
         client ∈ members st R ∧ client ≠ C ∧ is_open st client = true
         ∧ msg = JSON_stringify data).
Proof.
  intros Hparse Hf HR.
  exists st, (broadcast R data C st).
  rewrite (on_message_forward _ _ data) by done.
  rewrite HR.
  split; [done|]. do 2 (split; [done|]). split.
  - apply broadcast_absent.
  - intros client msg. apply elem_of_broadcast.
Qed.

(** C6. Malformed input: a frame that [JSON.parse] rejects is dropped.
    The handler returns (it does not throw), sends nothing and leaves the
    whole state, so the registry and every member set, as it was; hence
    whatever comes after it is handled as if the frame had never come. *)
Theorem malformed_input_is_dropped ws message st :
  JSON_parse message = None →
  on_message JSON_parse ws message st = Returned st []
  ∧ ∀ evs, run JSON_parse (Message ws message :: evs) st = run JSON_parse evs st.
Proof.
  intros Hparse.
  assert (on_message JSON_parse ws message st = Returned st []) as Hdrop.
  { unfold on_message. by rewrite Hparse. }
  split; [done|]. intros evs. simpl. rewrite Hdrop.
  by destruct (run JSON_parse evs st).
Qed.

(** C8. Room isolation: an offer, answer or candidate scoped to room R1
    sends nothing to a connection that is a member of another room R2 and
    not of R1. *)
Theorem room_isolation st ws R1 R2 message data client :
  R1 ≠ R2 →
  JSON_parse message = Some data → is_forward data → room_of st data = R1 →
  client ∈ members st R2 → client ∉ members st R1 →
  ∃ st' out, on_message JSON_parse ws message st = Returned st' out
    ∧ ∀ msg, (client, msg) ∉ out.
Proof.
  intros _ Hparse Hf HR _ Hout.
  exists st, (broadcast R1 data ws st).
  rewrite (on_message_forward _ _ data) by done.
  rewrite HR.
  split; [done|]. intros msg Hin.
  apply elem_of_broadcast in Hin as [? _]. done.
Qed.

(** ** Invariants of runs *)

(** What one event does to the registry and to the remembered keys: it
    leaves both alone, or it is a join and adds the sender to a set, or it
    is a disconnect and takes the connection out of a set. *)
Lemma step_inv ev st st' out :
  step JSON_parse ev st = Returned st' out →
  (join_of JSON_parse ev st = None
   ∧ rooms st' = rooms st ∧ roomId st' = roomId st)
  ∨ (∃ ws room, join_of JSON_parse ev st = Some (ws, room)
       ∧ rooms st' = <[room := Set_add ws (members st room)]> (rooms st)
       ∧ roomId st' = <[ws := room]> (roomId st))
  ∨ (∃ ws room l, join_of JSON_parse ev st = None
       ∧ rooms st !! room = Some l
       ∧ rooms st' = <[room := Set_delete ws l]> (rooms st)
       ∧ roomId st' = roomId st).
Proof.
  destruct ev as [ws message | ws | ws rs]; simpl.
  - destruct (JSON_parse message) as [data|] eqn:Hp.
    + destruct (strict_equals (property data "type") "join") eqn:Hj.
      * rewrite (on_message_join _ _ data) by done. intros Hjoin.
        rewrite join_unfold in Hjoin by (by eapply join_Returned).
        injection Hjoin as <- _. right. left. by exists ws, (room_of st data).
      * unfold on_message. rewrite Hp.
        destruct data; try done; rewrite Hj;
          destruct (_ || _); intros [= <- _]; by left.
    + unfold on_message. rewrite Hp. intros [= <- _]. by left.
  - unfold on_close. destruct (_ && _) eqn:Hif; intros [= <- _]; [|by left].
    apply andb_true_iff in Hif as [_ Hhas].
    apply bool_decide_eq_true in Hhas as [l Hl].
    right. right. exists ws, (get_roomId (set_readyState ws CLOSED st) ws), l.
    unfold members. simpl in *. by rewrite Hl.
  - intros [= <- _]. by left.
Qed.

Lemma NoDup_Set_add ws s : NoDup s → NoDup (Set_add ws s).
Proof.
  intros Hs. unfold Set_add. destruct (decide (ws ∈ s)); [done|].
  apply NoDup_app. split; [done|]. split; [|apply NoDup_singleton].
  intros x Hx ->%list_elem_of_singleton. done.
Qed.

Lemma elem_of_Set_add ws s x : x ∈ Set_add ws s ↔ x = ws ∨ x ∈ s.
Proof.
  unfold Set_add. destruct (decide (ws ∈ s)).
  - split; [by right | by intros [-> | ?]].
  - rewrite elem_of_app, list_elem_of_singleton. tauto.
Qed.

Lemma kept_initial : kept [] initial.
Proof. split; intros *; simpl; by rewrite lookup_empty. Qed.

Lemma members_NoDup J st room : kept J st → NoDup (members st room).
Proof.
  intros HI. unfold members.
  destruct (rooms st !! room) as [l|] eqn:E; simpl; [|apply NoDup_nil_2].
  by eapply kept_NoDup.
Qed.

Lemma step_kept J ev st st' out :
  kept J st → step JSON_parse ev st = Returned st' out →
  kept (J ++ option_list (join_of JSON_parse ev st)) st'.
Proof.
  intros HI Hstep.
  apply step_inv in Hstep
    as [(-> & Hr & Hi) | [(ws & room & -> & Hr & Hi) | (ws & room & l0 & -> & Hl0 & Hr & Hi)]];
    simpl.
  - rewrite app_nil_r. destruct HI as [Ha Hb Hc].
    split; rewrite ?Hr, ?Hi; done.
  - split; rewrite ?Hr, ?Hi.
    + intros k l. destruct (decide (room = k)) as [<-|Hk].
      * rewrite lookup_insert_eq. intros [= <-].
        eapply NoDup_Set_add, members_NoDup. done.
      * rewrite lookup_insert_ne by done. by eapply kept_NoDup.
    + intros k l x. rewrite lookup_insert_is_Some, elem_of_app.
      destruct (decide (room = k)) as [<-|Hk].
      * rewrite lookup_insert_eq. intros [= <-] Hx.
        apply elem_of_Set_add in Hx as [-> | Hx].
        { split; [right; by apply list_elem_of_singleton | by left]. }
        unfold members in Hx.
        destruct (rooms st !! room) as [l|] eqn:E; simpl in Hx;
          [|by apply elem_of_nil in Hx].
        destruct (kept_member _ _ HI room l x E Hx) as [? ?].
        split; [by left|]. destruct (decide (ws = x)); eauto.
      * rewrite lookup_insert_ne by done. intros Hl Hx.
        destruct (kept_member _ _ HI k l x Hl Hx) as [? ?].
        split; [by left|]. destruct (decide (ws = x)); eauto.
    + intros x k. rewrite elem_of_app. destruct (decide (ws = x)) as [<-|Hx].
      * rewrite lookup_insert_eq. intros [= <-].
        right. by apply list_elem_of_singleton.
      * rewrite lookup_insert_ne by done. intros ?. left.
        by eapply kept_roomId.
  - rewrite app_nil_r. split; rewrite ?Hr, ?Hi.
    + intros k l. destruct (decide (room = k)) as [<-|Hk].
      * rewrite lookup_insert_eq. intros [= <-].
        apply NoDup_filter. by eapply kept_NoDup.
      * rewrite lookup_insert_ne by done. by eapply kept_NoDup.
    + intros k l x. destruct (decide (room = k)) as [<-|Hk].
      * rewrite lookup_insert_eq. intros [= <-] Hx.
        apply list_elem_of_filter in Hx as [_ Hx].
        by eapply kept_member.
      * rewrite lookup_insert_ne by done. by eapply kept_member.
    + by eapply kept_roomId.
Qed.

Lemma run_kept evs : ∀ J st st' out,
  kept J st → run JSON_parse evs st = Returned st' out →
  kept (J ++ joins JSON_parse evs st) st'.
Proof.
  induction evs as [|ev evs IH]; intros J st st' out HI; simpl.
  - intros [= <- _]. by rewrite app_nil_r.
  - destruct (step JSON_parse ev st) as [st1 out1|] eqn:Hstep; [|done].
    destruct (run JSON_parse evs st1) as [st2 out2|] eqn:Hrun; [|done].
    intros [= <- _]. rewrite app_assoc.
    eapply IH; [|done]. by eapply step_kept.
Qed.

(** One event removes no key from the registry. *)
Lemma step_keeps_keys ev st st' out k :
  step JSON_parse ev st = Returned st' out →
  is_Some (rooms st !! k) → is_Some (rooms st' !! k).
Proof.
  intros Hstep Hk.
  apply step_inv in Hstep
    as [(_ & -> & _) | [(? & ? & _ & -> & _) | (? & ? & ? & _ & _ & -> & _)]];
    [done| |]; rewrite lookup_insert_is_Some;
    match goal with |- ?r = k ∨ _ => destruct (decide (r = k)); eauto end.
Qed.

(** C4, amended. Membership and remembered key: in every state reached
    by a run of messages and disconnects in which no connection sends join
    for two different room keys, a connection present in a room's member
    set has that room's key as its remembered room key. *)
Theorem member_remembers_its_room evs st out :
  run JSON_parse evs initial = Returned st out →
  (∀ ws k1 k2, (ws, k1) ∈ joins JSON_parse evs initial →
               (ws, k2) ∈ joins JSON_parse evs initial → k1 = k2) →
  ∀ k l ws, rooms st !! k = Some l → ws ∈ l → roomId st !! ws = Some k.
Proof.
  intros Hrun Hone k l ws Hl Hws.
  pose proof (run_kept evs [] initial st out kept_initial Hrun) as HI.
  simpl in HI.
  destruct (kept_member _ _ HI k l ws Hl Hws) as [Hj [k' Hk']].
  rewrite Hk'. f_equal. eapply Hone; [|done]. by eapply kept_roomId.
Qed.

(** C5, amended. At most two members: in every state reached by a run of
    joins, forwards and disconnects, a room for whose key at most two
    connections have sent join holds at most 2 connections.  (Nothing
    turns a third joiner away.) *)
Theorem two_joiners_two_members evs st out k l a b :
  run JSON_parse evs initial = Returned st out →
  (∀ ws, (ws, k) ∈ joins JSON_parse evs initial → ws = a ∨ ws = b) →
  rooms st !! k = Some l → length l ≤ 2.
Proof.
  intros Hrun Htwo Hl.
  pose proof (run_kept evs [] initial st out kept_initial Hrun) as HI.
  simpl in HI.
  change 2 with (length [a; b]). apply submseteq_length, NoDup_submseteq.
  - by eapply kept_NoDup.
  - intros ws Hws. destruct (kept_member _ _ HI k l ws Hl Hws) as [Hj _].
    destruct (Htwo ws Hj) as [-> | ->]; set_solver.
Qed.

(** C10, amended. Rooms are never pruned: no run removes a room key from
    the registry.  When the only member A of room R disconnects, A's
    remembered room key being R and R being truthy, R stays in the
    registry with an empty member set and nothing is sent; a later join
    for R by any connection C finds that empty set, puts C in it and
    sends [joined] to C alone, with the very outcome the same join has
    when R is not in the registry. *)
Theorem rooms_are_never_pruned :
  (∀ evs st st' out k,
     run JSON_parse evs st = Returned st' out →
     is_Some (rooms st !! k) → is_Some (rooms st' !! k))
  ∧ (∀ st A R,
       rooms st !! R = Some [A] → get_roomId st A = R → truthy R = true →
       ∃ st1, step JSON_parse (Close A) st = Returned st1 []
         ∧ rooms st1 !! R = Some []
         ∧ ∀ C message data,
             JSON_parse message = Some data → is_join data →
             room_of st1 data = R →
             ∃ st2, on_message JSON_parse C message st1 = Returned st2 [(C, joined)]
               ∧ rooms st2 !! R = Some [C]
               ∧ on_message JSON_parse C message (set_rooms (delete R) st1)
                 = Returned st2 [(C, joined)]).
Proof.
  split.
  - induction evs as [|ev evs IH]; intros st st' out k; simpl.
    + by intros [= <- _].
    + destruct (step JSON_parse ev st) as [st1 out1|] eqn:Hstep; [|done].
      destruct (run JSON_parse evs st1) as [st2 out2|] eqn:Hrun; [|done].
      intros [= <- _] Hk. eapply IH; [done|]. by eapply step_keeps_keys.
  - intros st A R Hl HR Ht. subst R.
    set (R := get_roomId st A) in *.
    set (st1 := set_rooms (<[R := []]>) (set_readyState A CLOSED st)).
    assert (rooms st1 !! R = Some []) as HR1 by (simpl; by rewrite lookup_insert_eq).
    exists st1. split; [|split; [done|]].
    + simpl. rewrite (on_close_unfold A _ [A]) by done. simpl.
      unfold Set_delete. rewrite filter_cons_False by naive_solver.
      rewrite filter_nil. unfold broadcast. simpl.
      change (get_roomId (set_readyState A CLOSED st) A) with R.
      by rewrite lookup_insert_eq.
    + intros C message data Hparse Hj HR.
      assert (¬ is_reference (property data "room")) as Hprim.
      { apply (key_not_reference st1). rewrite HR. eauto. }
      pose proof (not_reference_prints _ Hprim) as Hprint.
      exists (State (<[R := [C]]> (rooms st)) (<[C := R]> (roomId st))
                    (<[A := CLOSED]> (readyState st))).
      split; [|split].
      * rewrite (on_message_join _ _ data), join_unfold, HR by done.
        unfold members. rewrite HR1. simpl.
        rewrite Set_add_new by apply not_elem_of_nil. simpl.
        by rewrite insert_insert_eq.
      * simpl. by rewrite lookup_insert_eq.
      * rewrite (on_message_join _ _ data), join_unfold by done.
        assert (room_of (set_rooms (delete R) st1) data = R) as ->.
        { rewrite <- HR. by apply value_of_not_reference. }
        unfold members. simpl. rewrite lookup_delete_eq. simpl.
        rewrite Set_add_new by apply not_elem_of_nil. simpl.
        by rewrite insert_delete_eq, insert_insert_eq.
Qed.

End Broker_facts.

(** ** The theorems at work *)

Lemma join_sequencing_witness :
  1 ≠ 2 ∧ members idle (str "lobby") = []
  ∧ interpolation_throws (property (join_request "lobby") "room") = false
  ∧ ∃ st1, on_message frame_parse 1 (join_frame "lobby") idle
             = Returned st1 [(1, joined)]
      ∧ members st1 (str "lobby") = [1]
      ∧ (room_of st1 (join_request "lobby") = str "lobby" →
         ∃ st2, on_message frame_parse 2 (join_frame "lobby") st1 =
                  Returned st2 (if is_open st1 1 then [(1, ready)] else [])
                ∧ members st2 (str "lobby") = [1; 2]).
Proof.
  split; [done|]. split; [done|]. split; [done|].
  apply (join_sequencing frame_parse idle 1 2 (str "lobby")
           (join_frame "lobby") (join_request "lobby")
           (join_frame "lobby") (join_request "lobby")); done.
Defined.

(** The peer that is closing when the second join comes gets no [ready]:
    the run sends the [joined] of the first join and nothing else.  And
    a join whose room is an object with a property [toString] gets no
    [joined]: the handler throws. *)
Lemma join_sequencing_fails :
  match run frame_parse
          [Transport 1 OPEN; Message 1 (join_frame "lobby");
           Transport 2 OPEN; Transport 1 CLOSING;
           Message 2 (join_frame "lobby")] initial with
  | Returned st out =>
      out = [(1, joined)] ∧ members st (str "lobby") = [1; 2]
  | Thrown => False
  end
  ∧ run frame_parse [Transport 1 OPEN; Message 1 (Some join_unprintable)] initial
    = Thrown.
Proof. vm_compute. done. Qed.

Lemma forwarding_between_two_witness :
  (∃ st', on_message frame_parse 1 (Some offer_lobby) paired
            = Returned st' [(2, JSON_stringify offer_lobby)]
          ∧ rooms st' = rooms paired ∧ roomId st' = roomId paired)
  ∧ (∃ st', on_message frame_parse 2 (Some offer_lobby) paired
              = Returned st' [(1, JSON_stringify offer_lobby)]
            ∧ rooms st' = rooms paired ∧ roomId st' = roomId paired)
  ∧ (exact offer_lobby = true →
     text_value (JSON_stringify offer_lobby) = offer_lobby).
Proof.
  apply (forwarding_between_two frame_parse paired 1 2 (str "lobby")
           (Some offer_lobby) offer_lobby [1; 2]); done.
Defined.

(** An offer whose [sdp] is a number beyond the doubles reaches the peer
    with [sdp] written [null]: the fields delivered are not the fields
    that were sent. *)
Lemma forwarded_overflow_is_null :
  on_message frame_parse 1 (Some offer_overflow) paired
  = Returned paired
      [(2, TObject [("type", TString "offer"); ("room", TString "lobby");
                    ("sdp", TNull)])]
  ∧ text_value
      (TObject [("type", TString "offer"); ("room", TString "lobby");
                ("sdp", TNull)])
    ≠ offer_overflow.
Proof. split; [vm_compute; reflexivity | discriminate]. Qed.

Lemma forward_to_absent_room_is_noop_witness :
  rooms idle !! str "lobby" = None
  ∧ ∃ st' out, on_message frame_parse 3 (Some offer_lobby) idle = Returned st' out
      ∧ rooms st' = rooms idle ∧ roomId st' = roomId idle
      ∧ (rooms idle !! str "lobby" = None → out = [])
      ∧ (∀ client msg, (client, msg) ∈ out ↔
           client ∈ members idle (str "lobby") ∧ client ≠ 3
           ∧ is_open idle client = true ∧ msg = JSON_stringify offer_lobby).
Proof.
  split; [done|].
  apply (forward_to_absent_room_is_noop frame_parse idle 3 (str "lobby")
           (Some offer_lobby) offer_lobby); done.
Defined.

(** Connection 3 never joined [lobby], and its offer reaches both
    members of it. *)
Lemma forward_from_outsider_is_delivered :
  match run frame_parse (pairing ++ [Message 3 (Some offer_lobby)]) initial with
  | Returned st out =>
      members st (str "lobby") = [1; 2]
      ∧ out = [(1, joined); (1, ready);
               (1, JSON_stringify offer_lobby); (2, JSON_stringify offer_lobby)]
  | Thrown => False
  end.
Proof. vm_compute. done. Qed.

Lemma member_remembers_its_room_witness :
  run frame_parse pairing initial = Returned paired [(1, joined); (1, ready)]
  ∧ roomId paired !! 2 = Some (str "lobby").
Proof.
  assert (run frame_parse pairing initial
          = Returned paired [(1, joined); (1, ready)]) as Hrun
    by (vm_compute; reflexivity).
  split; [exact Hrun|].
  apply (member_remembers_its_room frame_parse pairing paired _ Hrun)
    with (l := [1; 2]).
  - change (joins frame_parse pairing initial)
      with [(1, str "lobby"); (2, str "lobby")].
    intros ws k1 k2 H1 H2.
    apply elem_of_cons in H1 as [[= _ ->] | H1];
      [|apply list_elem_of_singleton in H1 as [= _ ->]];
      (apply elem_of_cons in H2 as [[= _ ->] | H2];
        [|apply list_elem_of_singleton in H2 as [= _ ->]]); reflexivity.
  - reflexivity.
  - apply elem_of_cons. right. apply list_elem_of_singleton. reflexivity.
Defined.

(** A connection that joins [lobby] and then [den] stays in the member
    set of [lobby] while it remembers [den]. *)
Lemma member_of_first_room_remembers_second :
  match run frame_parse
          [Transport 1 OPEN; Message 1 (join_frame "lobby");
           Message 1 (join_frame "den")] initial with
  | Returned st out =>
      members st (str "lobby") = [1] ∧ get_roomId st 1 = str "den"
  | Thrown => False
  end.
Proof. vm_compute. done. Qed.

Lemma two_joiners_two_members_witness :
  run frame_parse pairing initial = Returned paired [(1, joined); (1, ready)]
  ∧ length [1; 2] ≤ 2.
Proof.
  assert (run frame_parse pairing initial
          = Returned paired [(1, joined); (1, ready)]) as Hrun
    by (vm_compute; reflexivity).
  split; [exact Hrun|].
  apply (two_joiners_two_members frame_parse pairing paired _
           (str "lobby") [1; 2] 1 2 Hrun).
  - change (joins frame_parse pairing initial)
      with [(1, str "lobby"); (2, str "lobby")].
    intros ws H.
    apply elem_of_cons in H as [[= -> ] | H];
      [by left | apply list_elem_of_singleton in H as [= ->]; by right].
  - reflexivity.
Defined.

(** Three connections join [lobby] and the room holds all three. *)
Lemma third_joiner_makes_three :
  match run frame_parse (pairing ++ [Message 3 (join_frame "lobby")]) initial with
  | Returned st out => members st (str "lobby") = [1; 2; 3]
  | Thrown => False
  end.
Proof. vm_compute. done. Qed.

Lemma malformed_input_is_dropped_witness :
  frame_parse None = None
  ∧ on_message frame_parse 1 None paired = Returned paired []
  ∧ ∀ evs, run frame_parse (Message 1 None :: evs) paired
           = run frame_parse evs paired.
Proof.
  split; [reflexivity|].
  apply (malformed_input_is_dropped frame_parse 1 None paired). reflexivity.
Defined.

Lemma disconnect_notification_witness :
  (∃ st', on_close 1 paired =
            Returned st' (if is_open paired 2 then [(2, leave)] else [])
     ∧ rooms st' = <[str "lobby" := [2]]> (rooms paired)
     ∧ roomId st' = roomId paired)
  ∧ on_close 3 paired = Returned paired [].
Proof.
  destruct disconnect_notification as [Hpair Hnone]. split.
  - apply (Hpair paired 1 2 (str "lobby") [1; 2]); done.
  - apply (Hnone paired 3). left. reflexivity.
Defined.

(** Three disconnects that notify nobody: from a room whose key is the
    empty string, which is falsy; from a room that is not the one the
    connection joined last; and next to a peer that is closing.  In the
    first two the connection is not even taken out of the member set. *)
Lemma disconnect_without_leave :
  match run frame_parse
          [Transport 1 OPEN; Transport 2 OPEN;
           Message 1 (join_frame EmptyString); Message 2 (join_frame EmptyString);
           Close 1] initial with
  | Returned st out =>
      out = [(1, joined); (1, ready)] ∧ members st (str EmptyString) = [1; 2]
  | Thrown => False
  end
  ∧ match run frame_parse
            (pairing ++ [Message 1 (join_frame "den"); Close 1]) initial with
    | Returned st out =>
        out = [(1, joined); (1, ready); (1, joined)]
        ∧ members st (str "lobby") = [1; 2]
    | Thrown => False
    end
  ∧ match run frame_parse (pairing ++ [Transport 2 CLOSING; Close 1]) initial with
    | Returned st out =>
        out = [(1, joined); (1, ready)] ∧ members st (str "lobby") = [2]
    | Thrown => False
    end.
Proof. vm_compute. done. Qed.

Lemma room_isolation_witness :
  str "lobby" ≠ str "den"
  ∧ 3 ∈ members two_rooms (str "den")
  ∧ (3 ∉ members two_rooms (str "lobby"))
  ∧ ∃ st' out,
      on_message frame_parse 1 (Some offer_lobby) two_rooms = Returned st' out
      ∧ ∀ msg, (3, msg) ∉ out.
Proof.
  assert (3 ∈ members two_rooms (str "den")) as Hin.
  { change (members two_rooms (str "den")) with [3; 4]. apply elem_of_cons. by left. }
  assert (3 ∉ members two_rooms (str "lobby")) as Hout.
  { change (members two_rooms (str "lobby")) with [1; 2].
    intros H. apply elem_of_cons in H as [H | H]; [done|].
    by apply list_elem_of_singleton in H. }
  split; [done|]. split; [exact Hin|]. split; [exact Hout|].
  apply (room_isolation frame_parse two_rooms 1 (str "lobby") (str "den")
           (Some offer_lobby) offer_lobby 3); done.
Defined.

Lemma third_join_is_added_silently_witness :
  rooms paired !! str "lobby" = Some [1; 2] ∧ (3 ∉ [1; 2])
  ∧ ∃ st', on_message frame_parse 3 (join_frame "lobby") paired = Returned st' []
      ∧ rooms st' !! str "lobby" = Some ([1; 2] ++ [3])
      ∧ length ([1; 2] ++ [3]) = 3
      ∧ roomId st' !! 3 = Some (str "lobby")
      ∧ ∀ k, k ≠ str "lobby" → rooms st' !! k = rooms paired !! k.
Proof.
  assert (3 ∉ [1; 2]) as Hout.
  { intros H. apply elem_of_cons in H as [H | H]; [done|].
    by apply list_elem_of_singleton in H. }
  split; [done|]. split; [exact Hout|].
  apply (third_join_is_added_silently frame_parse paired 3 (str "lobby")
           (join_frame "lobby") (join_request "lobby") [1; 2]); done.
Defined.

Lemma rooms_are_never_pruned_witness :
  is_Some (rooms waiting !! str "lobby")
  ∧ run frame_parse [Close 1] waiting = Returned emptied []
  ∧ is_Some (rooms emptied !! str "lobby")
  ∧ ∃ st1, step frame_parse (Close 1) waiting = Returned st1 []
      ∧ rooms st1 !! str "lobby" = Some []
      ∧ ∀ C message data,
          frame_parse message = Some data → is_join data →
          room_of st1 data = str "lobby" →
          ∃ st2, on_message frame_parse C message st1 = Returned st2 [(C, joined)]
            ∧ rooms st2 !! str "lobby" = Some [C]
            ∧ on_message frame_parse C message (set_rooms (delete (str "lobby")) st1)
              = Returned st2 [(C, joined)].
Proof.
  destruct (rooms_are_never_pruned frame_parse) as [Hkeys Hlast].
  assert (is_Some (rooms waiting !! str "lobby")) as Hhas by (by exists [1]).
  assert (run frame_parse [Close 1] waiting = Returned emptied []) as Hrun
    by (vm_compute; reflexivity).
  split; [exact Hhas|]. split; [exact Hrun|]. split.
  - exact (Hkeys [Close 1] waiting emptied [] (str "lobby") Hrun Hhas).
  - apply (Hlast waiting 1 (str "lobby")); done.
Defined.

(** Two rooms that keep their last member after it has disconnected: the
    room whose key is the empty string, which is falsy, and the room a
    connection joined before it joined another one. *)
Lemma last_member_stays_after_disconnect :
  match run frame_parse
          [Transport 1 OPEN; Message 1 (join_frame EmptyString); Close 1] initial with
  | Returned st out => members st (str EmptyString) = [1]
  | Thrown => False
  end
  ∧ match run frame_parse
            [Transport 1 OPEN; Message 1 (join_frame "lobby");
             Message 1 (join_frame "den"); Close 1] initial with
    | Returned st out =>
        members st (str "lobby") = [1] ∧ members st (str "den") = []
    | Thrown => False
    end.
Proof. vm_compute. done. Qed.


(** ** More about the handlers *)

Section Broker_more.

Context {raw : Type} (JSON_parse : raw → option json).

Lemma json_null_dec (data : json) : {data = JNull} + {data ≠ JNull}.
Proof. destruct data; (by left) || (by right). Qed.

(** The [switch] of the [message] handler, once the frame has parsed to
    something other than [null]. *)
Lemma on_message_cases ws message data st :
  JSON_parse message = Some data → data ≠ JNull →
  on_message JSON_parse ws message st =
    if strict_equals (property data "type") "join"
    then join ws (property data "room") (room_of st data) st
    else if strict_equals (property data "type") "offer"
            || strict_equals (property data "type") "answer"
            || strict_equals (property data "type") "candidate"
    then Returned st (broadcast (room_of st data) data ws st)
    else Returned st [].
Proof. intros Hp Hn. unfold on_message. rewrite Hp. by destruct data. Qed.

(** The [message] handler throws on a parsed [null], on a join whose
    room the log line cannot print, and on nothing else. *)
Lemma on_message_Thrown ws message st :
  on_message JSON_parse ws message st = Thrown ↔
  ∃ data, JSON_parse message = Some data
    ∧ (data = JNull
       ∨ (is_join data ∧ interpolation_throws (property data "room") = true)).
Proof.
  destruct (JSON_parse message) as [data|] eqn:Hp.
  - destruct (json_null_dec data) as [-> | Hn].
    { rewrite (on_message_null JSON_parse) by done. split; [|done].
      intros _. exists JNull. split; [done | by left]. }
    rewrite (on_message_cases _ _ data) by done. unfold is_join.
    destruct (strict_equals _ "join") eqn:Hj.
    + rewrite join_Thrown. split.
      * intros Ht. exists data. split; [done|]. right. by split.
      * by intros (? & [= <-] & [? | [_ ?]]).
    + split; [by destruct (_ || _)|].
      intros (? & [= <-] & [? | [Hj' _]]); [done|]. by rewrite Hj in Hj'.
  - unfold on_message. rewrite Hp. split; [done | by intros (? & ? & _)].
Qed.

Lemma step_Thrown ev st :
  step JSON_parse ev st = Thrown ↔
  ∃ ws message data, ev = Message ws message
    ∧ JSON_parse message = Some data
    ∧ (data = JNull
       ∨ (is_join data ∧ interpolation_throws (property data "room") = true)).
Proof.
  destruct ev as [ws message | ws | ws rs]; simpl.
  - rewrite on_message_Thrown. split.
    + intros (data & ? & ?). by exists ws, message, data.
    + intros (? & ? & data & [= <- <-] & ? & ?). by exists data.
  - split; [|by intros (? & ? & ? & ? & _)].
    unfold on_close. by destruct (_ && _).
  - split; [done | by intros (? & ? & ? & ? & _)].
Qed.

(** X1. An unknown type is ignored: a frame that parses to anything but
    [null] and whose [type] is none of join, offer, answer and candidate
    (another string, no string at all, or no [type] because the frame is
    a number, a string or an array) sends nothing and leaves every member
    set, remembered key and ready state as it was. *)
Theorem unknown_type_is_ignored ws message data st :
  JSON_parse message = Some data → data ≠ JNull →
  ¬ is_join data → ¬ is_forward data →
  ∃ st', on_message JSON_parse ws message st = Returned st' []
    ∧ rooms st' = rooms st ∧ roomId st' = roomId st
    ∧ readyState st' = readyState st.
Proof.
  intros Hp Hn Hj Hf. exists st.
  rewrite (on_message_cases _ _ data) by done.
  unfold is_join, is_forward in *.
  destruct (strict_equals _ "join"); [done|].
  by destruct (_ || _).
Qed.

(** X2. What stops the server: a run of events throws exactly when one of
    its frames parses to [null], or is a join whose room the log line
    cannot turn into a string (an object with a property [toString], or
    an array that holds one); with no such frame every event is handled
    and the run returns. *)
Theorem run_throws_iff_bad_frame evs : ∀ st,
  run JSON_parse evs st = Thrown ↔
  ∃ ws message data, Message ws message ∈ evs
    ∧ JSON_parse message = Some data
    ∧ (data = JNull
       ∨ (is_join data ∧ interpolation_throws (property data "room") = true)).
Proof.
  induction evs as [|ev evs IH]; intros st; simpl.
  - split; [done|]. by intros (? & ? & ? & ?%elem_of_nil & _).
  - split.
    + destruct (step JSON_parse ev st) as [st1 out1|] eqn:Hstep.
      * destruct (run JSON_parse evs st1) as [st2 out2|] eqn:Hrun; [done|].
        intros _. apply IH in Hrun as (ws & message & data & Hin & Hbad).
        exists ws, message, data. split; [by apply elem_of_cons; right | done].
      * intros _.
        apply step_Thrown in Hstep as (ws & message & data & -> & Hbad).
        exists ws, message, data. split; [by apply elem_of_cons; left | done].
    + intros (ws & message & data & Hin & Hbad).
      destruct (step JSON_parse ev st) as [st1 out1|] eqn:Hstep; [|done].
      apply elem_of_cons in Hin as [<- | Hin].
      * assert (step JSON_parse (Message ws message) st = Thrown) as Hthrow
          by (apply step_Thrown; eauto).
        by rewrite Hthrow in Hstep.
      * assert (run JSON_parse evs st1 = Thrown) as ->; [|done].
        apply IH. eauto.
Qed.

(** X3. A join by a connection that is already in the room changes no
    member set: the connection is not added twice.  It still gets the
    reply of the size it finds: [joined] again when it is alone; when
    the room holds it and one peer, a [ready] to the peer if the peer is
    open and nothing if it is not; nothing when the room holds more. *)
Theorem rejoin_changes_no_member_set ws R message data st l :
  rooms st !! R = Some l → ws ∈ l →
  JSON_parse message = Some data → is_join data → room_of st data = R →
  ∃ st' out, on_message JSON_parse ws message st = Returned st' out
    ∧ rooms st' = rooms st ∧ roomId st' = <[ws := R]> (roomId st)
    ∧ (l = [ws] → out = [(ws, joined)])
    ∧ (∀ peer, l ≡ₚ [ws; peer] → ws ≠ peer →
         out = if is_open st peer then [(peer, ready)] else [])
    ∧ (2 < length l → out = []).
Proof.
  intros Hl Hin Hp Hj HR.
  assert (interpolation_throws (property data "room") = false) as Hprint.
  { apply not_reference_prints, (key_not_reference st). rewrite HR. eauto. }
  set (st' := State (rooms st) (<[ws := R]> (roomId st)) (readyState st)).
  exists st',
    (if length l =? 1 then [(ws, joined)]
     else if length l =? 2 then broadcast R (type_only "ready") ws st' else []).
  split; [|split; [done|split; [done|split; [|split]]]].
  - rewrite (on_message_join _ _ _ data), join_unfold, HR by done.
    unfold members. simpl. rewrite Hl. simpl.
    unfold Set_add. rewrite decide_True by done.
    by rewrite (insert_id (rooms st) R l).
  - by intros ->.
  - intros peer Hperm Hne. rewrite (Permutation_length Hperm). simpl.
    by rewrite (broadcast_pair R _ ws peer st' l).
  - intros Hlen. destruct (length l) as [|[|[|n]]]; simpl; (done || lia).
Qed.

(** A broadcast, as the list of those it reaches. *)
Lemma broadcast_filter room message sender st l :
  rooms st !! room = Some l →
  broadcast room message sender st =
    (λ c, (c, JSON_stringify message))
      <$> filter (λ c, c ≠ sender ∧ is_open st c = true) l.
Proof.
  intros Hl. unfold broadcast. rewrite Hl. clear Hl.
  induction l as [|a l IH]; simpl; [done|]. rewrite IH.
  destruct (decide (a ≠ sender ∧ is_open st a = true)) as [[Hne Hop] | Hn].
  - rewrite filter_cons_True by done.
    by rewrite bool_decide_eq_true_2, Hop.
  - rewrite filter_cons_False by done.
    destruct (bool_decide (a ≠ sender)) eqn:Hne; [|done].
    apply bool_decide_eq_true in Hne.
    destruct (is_open st a) eqn:Hop; [|done]. by destruct Hn.
Qed.

Lemma fmap_fst_pair (msg : text) (l : list conn) :
  ((λ c, (c, msg)) <$> l).*1 = l.
Proof. induction l as [|a l IH]; simpl; [done | by f_equal]. Qed.

(** X4. A disconnect from a room of any size: when the key the connection
    remembers is truthy and in the registry, the connection is taken out
    of that room's member set and the others stay in their order; the
    messages sent are one [leave] to each member that is left and open,
    in the order of the set, and nothing else; and the connection still
    remembers the key. *)
Theorem disconnect_from_any_room st A R l :
  rooms st !! R = Some l → NoDup l → get_roomId st A = R → truthy R = true →
  ∃ st' out, on_close A st = Returned st' out
    ∧ rooms st' = <[R := Set_delete A l]> (rooms st)
    ∧ roomId st' = roomId st
    ∧ (A ∉ members st' R)
    ∧ (∀ c, c ≠ A → c ∈ members st' R ↔ c ∈ l)
    ∧ out = (λ c, (c, leave))
              <$> filter (λ c, c ≠ A ∧ is_open st c = true) l
    ∧ NoDup out.*1.
Proof.
  intros Hl Hnd HR Ht. subst R.
  set (R := get_roomId st A) in *.
  set (st' := set_rooms (<[R := Set_delete A l]>) st).
  assert (rooms st' !! R = Some (Set_delete A l)) as Hl'
    by (simpl; by rewrite lookup_insert_eq).
  assert (members st' R = Set_delete A l) as Hm by (unfold members; by rewrite Hl').
  assert (filter (λ c, c ≠ A ∧ is_open st c = true) (Set_delete A l)
          = filter (λ c, c ≠ A ∧ is_open st c = true) l) as Hff.
  { unfold Set_delete. clear. induction l as [|a l IH]; [done|].
    destruct (decide (a ≠ A)) as [Hne | Heq].
    - rewrite (filter_cons_True (λ client, client ≠ A)) by done.
      rewrite !filter_cons, IH. done.
    - rewrite (filter_cons_False (λ client, client ≠ A)) by done.
      rewrite IH. by rewrite (filter_cons_False _ a) by tauto. }
  exists st', (broadcast R (type_only "leave") A st').
  split; [by rewrite (on_close_unfold A st l)|].
  do 2 (split; [done|]). rewrite Hm. unfold Set_delete.
  split; [|split; [|split]].
  - rewrite list_elem_of_filter. tauto.
  - intros c Hc. rewrite list_elem_of_filter. tauto.
  - rewrite (broadcast_filter R _ A st' _ Hl').
    change (is_open st') with (is_open st). by rewrite Hff.
  - rewrite (broadcast_filter R _ A st' _ Hl'), fmap_fst_pair.
    apply NoDup_filter. unfold Set_delete. by apply NoDup_filter.
Qed.


(** X6. What a message may touch: a frame that is handled changes no
    ready state, no remembered key but the sender's, and no member set but
    that of the room it names; and it takes nobody out of any room, a
    member set only ever grows at its end. *)
Theorem message_touches_one_room ws message st st' out :
  on_message JSON_parse ws message st = Returned st' out →
  readyState st' = readyState st
  ∧ (∀ c, c ≠ ws → roomId st' !! c = roomId st !! c)
  ∧ (∀ k l, rooms st !! k = Some l → ∃ l', rooms st' !! k = Some (l ++ l'))
  ∧ (∀ data k, JSON_parse message = Some data → k ≠ room_of st data →
       rooms st' !! k = rooms st !! k).
Proof.
  assert (∀ k l, rooms st !! k = Some l → ∃ l', rooms st !! k = Some (l ++ l')) as Hsame.
  { intros k l Hl. exists []. by rewrite app_nil_r. }
  destruct (JSON_parse message) as [data|] eqn:Hp.
  - destruct (json_null_dec data) as [-> | Hn].
    { by rewrite (on_message_null JSON_parse). }
    rewrite (on_message_cases _ _ data) by done.
    destruct (strict_equals _ "join").
    + intros Hjoin. rewrite join_unfold in Hjoin by (by eapply join_Returned).
      injection Hjoin as <- _. simpl.
      split; [done|]. split; [|split].
      * intros c Hc. by rewrite lookup_insert_ne.
      * intros k l Hl. destruct (decide (room_of st data = k)) as [<- | Hk].
        -- rewrite lookup_insert_eq. unfold members. simpl. rewrite Hl. simpl.
           unfold Set_add. destruct (decide (ws ∈ l)); [|by eauto].
           exists []. by rewrite app_nil_r.
        -- rewrite lookup_insert_ne by done. by apply Hsame.
      * intros ? k [= <-] Hk. by rewrite lookup_insert_ne.
    + destruct (_ || _); intros [= <- _]; done.
  - unfold on_message. rewrite Hp. intros [= <- _]. done.
Qed.

(** X7. What a disconnect may touch: the [close] handler always returns;
    it changes no remembered key (the connection goes on remembering its
    room) and no ready state, no member set but that of the remembered
    room, takes out nobody but the connection itself, and neither adds
    nor removes a key of the registry. *)
Theorem close_touches_one_room ws st :
  ∃ st' out, on_close ws st = Returned st' out
    ∧ roomId st' = roomId st ∧ readyState st' = readyState st
    ∧ (∀ k, k ≠ get_roomId st ws → rooms st' !! k = rooms st !! k)
    ∧ (∀ k c, c ≠ ws → c ∈ members st' k ↔ c ∈ members st k)
    ∧ (∀ k, is_Some (rooms st' !! k) ↔ is_Some (rooms st !! k)).
Proof.
  unfold on_close. destruct (_ && _) eqn:Hif; [|by eauto 10].
  apply andb_true_iff in Hif as [_ Hhas].
  apply bool_decide_eq_true in Hhas as [l Hl].
  do 2 eexists. split; [reflexivity|]. simpl.
  do 2 (split; [done|]). split; [|split].
  - intros k Hk. by rewrite lookup_insert_ne.
  - intros k c Hc. unfold members at 1. simpl.
    destruct (decide (get_roomId st ws = k)) as [<- | Hk].
    + rewrite lookup_insert_eq. simpl. unfold Set_delete.
      rewrite list_elem_of_filter. tauto.
    + by rewrite lookup_insert_ne.
  - intros k. rewrite lookup_insert_is_Some.
    destruct (decide (get_roomId st ws = k)) as [<- | Hk]; [|tauto].
    split; [eauto | by left].
Qed.

(** ** Who is sent what *)

Lemma singleton_of_length (l : list conn) c : length l = 1 → c ∈ l → l = [c].
Proof.
  destruct l as [|x [|y l]]; try done.
  by intros _ ->%list_elem_of_singleton.
Qed.

(** After the [join] case the room holds what [add] made of it, and the
    reply goes by the size of that. *)
Lemma join_inv ws room key st st' out :
  join ws room key st = Returned st' out →
  members st' key = Set_add ws (members st key)
  ∧ out = (if length (members st' key) =? 1 then [(ws, joined)]
           else if length (members st' key) =? 2
           then broadcast key (type_only "ready") ws st' else []).
Proof.
  intros Hjoin. rewrite join_unfold in Hjoin by (by eapply join_Returned).
  cbv zeta in Hjoin. injection Hjoin as <- <-.
  assert (∀ rid rs,
    members (State (<[key := Set_add ws (members st key)]> (rooms st)) rid rs) key
    = Set_add ws (members st key)) as Hm.
  { intros. unfold members at 1. simpl. by rewrite lookup_insert_eq. }
  by rewrite !Hm.
Qed.

(** Every message an event sends, with the event that sent it. *)
Lemma step_sends ev st st' out c msg :
  step JSON_parse ev st = Returned st' out → (c, msg) ∈ out →
  (∃ message data, ev = Message c message
     ∧ JSON_parse message = Some data ∧ is_join data ∧ msg = joined
     ∧ members st' (room_of st data) = [c])
  ∨ (∃ ws message data, ev = Message ws message
       ∧ JSON_parse message = Some data ∧ is_join data ∧ msg = ready
       ∧ c ≠ ws ∧ length (members st' (room_of st data)) = 2
       ∧ c ∈ members st' (room_of st data) ∧ is_open st' c = true)
  ∨ (∃ ws, ev = Close ws ∧ msg = leave ∧ c ≠ ws
       ∧ c ∈ members st' (get_roomId st ws) ∧ is_open st' c = true)
  ∨ (∃ ws message data, ev = Message ws message
       ∧ JSON_parse message = Some data ∧ is_forward data
       ∧ msg = JSON_stringify data
       ∧ c ≠ ws ∧ c ∈ members st' (room_of st data) ∧ is_open st' c = true).
Proof.
  destruct ev as [ws message | ws | ws rs]; simpl.
  - destruct (JSON_parse message) as [data|] eqn:Hp.
    + destruct (json_null_dec data) as [-> | Hn].
      { by rewrite (on_message_null JSON_parse). }
      rewrite (on_message_cases _ _ data) by done.
      destruct (strict_equals _ "join") eqn:Hj.
      * intros Hjoin. apply join_inv in Hjoin as [Hm ->].
        destruct (length (members st' (room_of st data)) =? 1) eqn:H1;
          [|destruct (length (members st' (room_of st data)) =? 2) eqn:H2].
        -- intros [= -> ->]%list_elem_of_singleton. left.
           exists message, data. do 4 (split; [done|]).
           apply singleton_of_length; [by apply Nat.eqb_eq|].
           rewrite Hm. apply elem_of_Set_add. by left.
        -- intros (Hc & Hne & Hop & ->)%elem_of_broadcast. right. left.
           exists ws, message, data. do 5 (split; [done|]).
           split; [|done]. by apply Nat.eqb_eq.
        -- by intros ?%elem_of_nil.
      * destruct (_ || _) eqn:Hf; intros [= <- <-].
        -- intros (Hc & Hne & Hop & ->)%elem_of_broadcast.
           right. right. right. by exists ws, message, data.
        -- by intros ?%elem_of_nil.
    + unfold on_message. rewrite Hp. intros [= <- <-]. by intros ?%elem_of_nil.
  - unfold on_close. destruct (_ && _); intros [= <- <-].
    + intros (Hc & Hne & Hop & ->)%elem_of_broadcast.
      right. right. left. by exists ws.
    + by intros ?%elem_of_nil.
  - intros [= <- <-]. by intros ?%elem_of_nil.
Qed.

(** X8. What the broker says: every message an event makes the broker
    send is one of four.  [joined] goes to the connection whose join left
    it alone in its room; [ready] goes to another connection than the one
    whose join made the room hold two; [leave] goes to another connection
    than the one that disconnected; and anything else is the text
    [JSON.stringify] makes of the parsed object of an offer, answer or
    candidate, sent to another connection than its sender.  Nothing but
    [joined] ever goes back to the connection the event came from. *)
Theorem what_the_broker_sends ev st st' out c msg :
  step JSON_parse ev st = Returned st' out → (c, msg) ∈ out →
  (msg = joined ∧ ∃ message data, ev = Message c message
     ∧ JSON_parse message = Some data ∧ is_join data
     ∧ members st' (room_of st data) = [c])
  ∨ (msg = ready ∧ ∃ ws message data, ev = Message ws message
       ∧ JSON_parse message = Some data ∧ is_join data
       ∧ c ≠ ws ∧ length (members st' (room_of st data)) = 2)
  ∨ (msg = leave ∧ ∃ ws, ev = Close ws ∧ c ≠ ws)
  ∨ (∃ ws message data, ev = Message ws message
       ∧ JSON_parse message = Some data ∧ is_forward data
       ∧ msg = JSON_stringify data ∧ c ≠ ws).
Proof.
  intros Hstep Hin.
  destruct (step_sends _ _ _ _ _ _ Hstep Hin)
    as [(m & d & ? & ? & ? & ? & ?)
       | [(ws & m & d & ? & ? & ? & ? & ? & ? & ? & ?)
         | [(ws & ? & ? & ? & ? & ?) | (ws & m & d & ? & ? & ? & ? & ? & ? & ?)]]].
  - left. split; [done|]. by exists m, d.
  - right. left. split; [done|]. by exists ws, m, d.
  - right. right. left. split; [done|]. by exists ws.
  - right. right. right. by exists ws, m, d.
Qed.

(** X9. Who is reached: whoever an event sends a message to is, after the
    event, a member of a room of the registry; and it is open, unless the
    message is the [joined] that answers its own join, which is sent
    without a look at the ready state. *)
Theorem only_open_members_are_reached ev st st' out c msg :
  step JSON_parse ev st = Returned st' out → (c, msg) ∈ out →
  (∃ k, c ∈ members st' k)
  ∧ (is_open st' c = true ∨ (msg = joined ∧ ∃ message, ev = Message c message)).
Proof.
  intros Hstep Hin.
  destruct (step_sends _ _ _ _ _ _ Hstep Hin)
    as [(m & d & ? & ? & ? & ? & Hm)
       | [(ws & m & d & ? & ? & ? & ? & ? & ? & ? & ?)
         | [(ws & ? & ? & ? & ? & ?) | (ws & m & d & ? & ? & ? & ? & ? & ? & ?)]]].
  - split; [|right; split; [done | by exists m]].
    exists (room_of st d). rewrite Hm. by apply list_elem_of_singleton.
  - split; [by eexists | by left].
  - split; [by eexists | by left].
  - split; [by eexists | by left].
Qed.

(** ** More invariants of runs *)

(** X10. A room named by an object is always new: in every state, a join
    whose [room] is an array or an object that the log line can print
    finds no room under that key, so the sender gets [joined] and is
    alone in the room it made.  Two connections never meet in such a
    room. *)
Theorem object_room_is_always_new st ws message data :
  JSON_parse message = Some data → is_join data →
  is_reference (property data "room") →
  interpolation_throws (property data "room") = false →
  ∃ st', on_message JSON_parse ws message st = Returned st' [(ws, joined)]
    ∧ rooms st !! room_of st data = None
    ∧ members st' (room_of st data) = [ws].
Proof.
  intros Hp Hj Href Hprint.
  assert (rooms st !! room_of st data = None) as Hnew.
  { unfold room_of. rewrite (value_of_reference _ _ Href). apply fresh_not_key. }
  set (R := room_of st data) in *.
  exists (State (<[R := [ws]]> (rooms st)) (<[ws := R]> (roomId st))
                (readyState st)).
  split; [|split; [done|]].
  - rewrite (on_message_join _ _ _ data), join_unfold by done. fold R.
    unfold members. simpl. rewrite Hnew. simpl.
    by rewrite Set_add_new by apply not_elem_of_nil.
  - unfold members. simpl. by rewrite lookup_insert_eq.
Qed.

(** The key a connection remembers is a key of the registry. *)
Lemma run_roomId_in_registry evs : ∀ st st' out,
  (∀ c k, roomId st !! c = Some k → is_Some (rooms st !! k)) →
  run JSON_parse evs st = Returned st' out →
  ∀ c k, roomId st' !! c = Some k → is_Some (rooms st' !! k).
Proof.
  induction evs as [|ev evs IH]; intros st st' out Hold; simpl.
  - by intros [= <- _].
  - destruct (step JSON_parse ev st) as [st1 out1|] eqn:Hstep; [|done].
    destruct (run JSON_parse evs st1) as [st2 out2|] eqn:Hrun; [|done].
    intros [= <- _]. eapply IH; [|done]. clear IH Hrun.
    apply step_inv in Hstep
      as [(_ & Hr & Hi) | [(ws & room & _ & Hr & Hi) | (ws & room & l & _ & _ & Hr & Hi)]];
      rewrite Hr, Hi; [done| |].
    + intros c k. rewrite lookup_insert_is_Some.
      destruct (decide (ws = c)) as [<- | Hc].
      * rewrite lookup_insert_eq. intros [= <-]. by left.
      * rewrite lookup_insert_ne by done. intros Hk%Hold.
        destruct (decide (room = k)); eauto.
    + intros c k Hk%Hold. rewrite lookup_insert_is_Some.
      destruct (decide (room = k)); eauto.
Qed.

(** X11. Members have joined: in every state a run reaches, a connection
    is in the member set of a room only if it has sent join for that very
    key, and it then remembers some key; and the key a connection
    remembers is one it has sent join for and is still a key of the
    registry, so that [rooms.has(roomId)] in the [close] handler holds
    whenever [roomId] is set. *)
Theorem members_have_joined evs st out :
  run JSON_parse evs initial = Returned st out →
  (∀ k c, c ∈ members st k →
     (c, k) ∈ joins JSON_parse evs initial ∧ is_Some (roomId st !! c))
  ∧ (∀ c k, roomId st !! c = Some k →
       (c, k) ∈ joins JSON_parse evs initial ∧ is_Some (rooms st !! k)).
Proof.
  intros Hrun.
  pose proof (run_kept JSON_parse evs [] initial st out kept_initial Hrun) as HI.
  simpl in HI. split.
  - intros k c. unfold members.
    destruct (rooms st !! k) as [l|] eqn:E; simpl; [|by intros ?%elem_of_nil].
    by eapply kept_member.
  - intros c k Hk. split; [by eapply kept_roomId|].
    eapply (run_roomId_in_registry evs initial); [|done..].
    intros ? ?. simpl. by rewrite lookup_empty.
Qed.

(** Whoever a run sends to has sent a join. *)
Lemma run_recipients_joined evs : ∀ J st st' out c msg,
  kept J st → run JSON_parse evs st = Returned st' out → (c, msg) ∈ out →
  ∃ k, (c, k) ∈ J ++ joins JSON_parse evs st.
Proof.
  induction evs as [|ev evs IH]; intros J st st' out c msg HI; simpl.
  - intros [= _ <-]. by intros ?%elem_of_nil.
  - destruct (step JSON_parse ev st) as [st1 out1|] eqn:Hstep; [|done].
    destruct (run JSON_parse evs st1) as [st2 out2|] eqn:Hrun; [|done].
    intros [= _ <-]. rewrite app_assoc.
    pose proof (step_kept JSON_parse J ev st st1 out1 HI Hstep) as HI1.
    intros [Hin | Hin]%elem_of_app; [|by eapply IH].
    destruct (step_sends _ _ _ _ _ _ Hstep Hin)
      as [(m & d & ? & ? & ? & ? & Hm)
         | [(ws & m & d & ? & ? & ? & ? & ? & ? & Hm & ?)
           | [(ws & ? & ? & ? & Hm & ?)
             | (ws & m & d & ? & ? & ? & ? & ? & Hm & ?)]]].
    1: assert (c ∈ members st1 (room_of st d)) as Hm'
         by (rewrite Hm; by apply list_elem_of_singleton); clear Hm;
       rename Hm' into Hm.
    all: unfold members in Hm;
      match type of Hm with _ ∈ default [] (?m !! ?k) =>
        destruct (m !! k) as [l|] eqn:E; simpl in Hm;
          [|by apply elem_of_nil in Hm];
        exists k; apply elem_of_app; left;
        by eapply kept_member
      end.
Qed.

(** X12. Silence for those who never joined: in a run from the start, a
    connection that has sent no join is sent nothing at all, whatever it
    and the others send and whoever disconnects. *)
Theorem never_joined_never_reached evs st out c :
  run JSON_parse evs initial = Returned st out →
  (∀ k, (c, k) ∉ joins JSON_parse evs initial) →
  ∀ msg, (c, msg) ∉ out.
Proof.
  intros Hrun Hnone msg Hin.
  destruct (run_recipients_joined evs [] initial st out c msg kept_initial Hrun Hin)
    as [k Hk].
  by apply (Hnone k).
Qed.

Lemma broadcast_NoDup room message sender st :
  NoDup (members st room) → NoDup (broadcast room message sender st).*1.
Proof.
  unfold broadcast, members.
  destruct (rooms st !! room) as [l|]; simpl; [|intros _; apply NoDup_nil_2].
  induction l as [|a l IH]; simpl; [done|].
  intros [Ha Hl]%NoDup_cons. rewrite fmap_app. apply NoDup_app.
  split; [|split; [|by apply IH]].
  - destruct (_ && _); simpl; [apply NoDup_singleton | apply NoDup_nil_2].
  - intros x Hx Hin. destruct (_ && _); simpl in Hx;
      [apply list_elem_of_singleton in Hx as -> | by apply elem_of_nil in Hx].
    apply list_elem_of_fmap in Hin as [[c m] [-> Hin]]. simpl in Ha.
    apply list_elem_of_In, in_flat_map in Hin as (c' & Hc' & Hin).
    destruct (_ && _); simpl in Hin; [|done].
    destruct Hin as [[= -> _] | []]. by apply Ha, list_elem_of_In.
Qed.

(** An event sends nothing, or one [joined], or one broadcast over the
    state it leaves. *)
Lemma step_out_shape ev st st' out :
  step JSON_parse ev st = Returned st' out →
  out = [] ∨ (∃ ws, out = [(ws, joined)])
  ∨ ∃ room message sender, out = broadcast room message sender st'.
Proof.
  destruct ev as [ws message | ws | ws rs]; simpl.
  - destruct (JSON_parse message) as [data|] eqn:Hp.
    + destruct (json_null_dec data) as [-> | Hn].
      { by rewrite (on_message_null JSON_parse). }
      rewrite (on_message_cases _ _ data) by done.
      destruct (strict_equals _ "join").
      * intros [_ ->]%join_inv. repeat case_match; eauto 10.
      * destruct (_ || _); intros [= <- <-]; eauto 10.
    + unfold on_message. rewrite Hp. intros [= <- <-]. by left.
  - unfold on_close. destruct (_ && _); intros [= <- <-]; eauto 10.
  - intros [= <- <-]. by left.
Qed.

(** X13. One copy each: in every state a run reaches, no event makes the
    broker send two messages to the same connection; a forwarded offer,
    a [ready] or a [leave] arrives once. *)
Theorem one_copy_per_connection evs st out0 ev st' out :
  run JSON_parse evs initial = Returned st out0 →
  step JSON_parse ev st = Returned st' out →
  NoDup out.*1.
Proof.
  intros Hrun Hstep.
  pose proof (run_kept JSON_parse evs [] initial st out0 kept_initial Hrun) as HI.
  pose proof (step_kept JSON_parse _ ev st st' out HI Hstep) as HI'.
  apply step_out_shape in Hstep
    as [-> | [[ws ->] | (room & message & sender & ->)]].
  - apply NoDup_nil_2.
  - apply NoDup_singleton.
  - eapply broadcast_NoDup, members_NoDup. done.
Qed.

(** The registry holds the keys that were joined, and no other. *)
Lemma run_keys_joined evs : ∀ J st st' out,
  (∀ k, is_Some (rooms st !! k) ↔ ∃ c, (c, k) ∈ J) →
  run JSON_parse evs st = Returned st' out →
  ∀ k, is_Some (rooms st' !! k) ↔ ∃ c, (c, k) ∈ J ++ joins JSON_parse evs st.
Proof.
  induction evs as [|ev evs IH]; intros J st st' out Hold; simpl.
  - intros [= <- _]. by rewrite app_nil_r.
  - destruct (step JSON_parse ev st) as [st1 out1|] eqn:Hstep; [|done].
    destruct (run JSON_parse evs st1) as [st2 out2|] eqn:Hrun; [|done].
    intros [= <- _]. rewrite app_assoc. eapply IH; [|done]. clear IH Hrun.
    intros k.
    apply step_inv in Hstep
      as [(-> & -> & _) | [(ws & room & -> & -> & _) | (ws & room & l & -> & Hl & -> & _)]];
      simpl; rewrite ?app_nil_r; [done| |].
    + rewrite lookup_insert_is_Some. setoid_rewrite elem_of_app.
      setoid_rewrite list_elem_of_singleton. rewrite Hold. split.
      * intros [<- | [_ [c Hc]]]; [exists ws; by right | exists c; by left].
      * intros [c [Hc | [= -> ->]]]; [|by left].
        destruct (decide (room = k)); [by left | right; split; eauto].
    + rewrite lookup_insert_is_Some, <- Hold. split.
      * intros [<- | [_ ?]]; [by eauto | done].
      * intros Hk. destruct (decide (room = k)); [by left | by right].
Qed.

(** X14. The keys of the registry: in every state a run reaches, a key is
    in the registry exactly when some connection has sent join for it.
    Offers, answers, candidates and disconnects make no room, and
    nothing unmakes one. *)
Theorem registry_is_what_was_joined evs st out k :
  run JSON_parse evs initial = Returned st out →
  is_Some (rooms st !! k) ↔ ∃ c, (c, k) ∈ joins JSON_parse evs initial.
Proof.
  intros Hrun.
  apply (run_keys_joined evs [] initial st out); [|done].
  intros k'. simpl. rewrite lookup_empty. split.
  - by intros [? ?].
  - by intros [? ?%elem_of_nil].
Qed.

End Broker_more.


(** ** These at work *)

Lemma unknown_type_is_ignored_witness :
  ¬ is_join ping ∧ ¬ is_forward ping
  ∧ ∃ st', on_message frame_parse 1 (Some ping) paired = Returned st' []
      ∧ rooms st' = rooms paired ∧ roomId st' = roomId paired
      ∧ readyState st' = readyState paired.
Proof.
  assert (¬ is_join ping) as Hj by (by intros H).
  assert (¬ is_forward ping) as Hf by (by intros H).
  split; [exact Hj|]. split; [exact Hf|].
  apply (unknown_type_is_ignored frame_parse 1 (Some ping) ping paired); done.
Defined.

(** Connection 1 joins [lobby] again while it shares it with 2: the set
    stays as it was and 2, which is open, is sent [ready] once more. *)
Lemma rejoin_changes_no_member_set_witness :
  rooms paired !! str "lobby" = Some [1; 2] ∧ 1 ∈ [1; 2]
  ∧ ∃ st' out,
      on_message frame_parse 1 (join_frame "lobby") paired = Returned st' out
      ∧ rooms st' = rooms paired
      ∧ roomId st' = <[1 := str "lobby"]> (roomId paired)
      ∧ out = [(2, ready)].
Proof.
  assert (1 ∈ [1; 2]) as Hin by (apply elem_of_cons; by left).
  split; [done|]. split; [exact Hin|].
  destruct (rejoin_changes_no_member_set frame_parse 1 (str "lobby")
              (join_frame "lobby") (join_request "lobby") paired [1; 2])
    as (st' & out & Hm & Hr & Hi & _ & Hpair & _); [done..|].
  exists st', out. do 3 (split; [done|]).
  exact (Hpair 2 (reflexivity _) ltac:(done)).
Defined.

(** Connection 1 leaves a room of three in which 2 is open and 3 is
    closing: 2 is sent the one [leave]. *)
Lemma disconnect_from_any_room_witness :
  rooms crowded !! str "lobby" = Some [1; 2; 3] ∧ NoDup [1; 2; 3]
  ∧ ∃ st' out, on_close 1 crowded = Returned st' out
      ∧ rooms st' = <[str "lobby" := Set_delete 1 [1; 2; 3]]> (rooms crowded)
      ∧ roomId st' = roomId crowded
      ∧ (1 ∉ members st' (str "lobby"))
      ∧ (∀ c, c ≠ 1 → c ∈ members st' (str "lobby") ↔ c ∈ [1; 2; 3])
      ∧ out = [(2, leave)]
      ∧ NoDup out.*1.
Proof.
  assert (NoDup [1; 2; 3]) as Hnd.
  { apply NoDup_ListNoDup.
    repeat (constructor; [simpl; intuition lia|]). constructor. }
  split; [done|]. split; [exact Hnd|].
  exact (disconnect_from_any_room crowded 1 (str "lobby") [1; 2; 3]
           (reflexivity _) Hnd (reflexivity _) (reflexivity _)).
Defined.


Lemma message_touches_one_room_witness :
  on_message frame_parse 3 (join_frame "den") paired
    = Returned lobby_and_den [(3, joined)]
  ∧ readyState lobby_and_den = readyState paired
  ∧ (∀ c, c ≠ 3 → roomId lobby_and_den !! c = roomId paired !! c)
  ∧ (∀ k l, rooms paired !! k = Some l →
       ∃ l', rooms lobby_and_den !! k = Some (l ++ l'))
  ∧ (∀ data k, frame_parse (join_frame "den") = Some data →
       k ≠ room_of paired data →
       rooms lobby_and_den !! k = rooms paired !! k).
Proof.
  assert (on_message frame_parse 3 (join_frame "den") paired
    = Returned lobby_and_den [(3, joined)]) as Hm by (vm_compute; reflexivity).
  split; [exact Hm|].
  exact (message_touches_one_room frame_parse 3 (join_frame "den") paired
           lobby_and_den [(3, joined)] Hm).
Defined.

Lemma what_the_broker_sends_witness :
  step frame_parse (Message 1 (Some offer_lobby)) paired
    = Returned paired [(2, JSON_stringify offer_lobby)]
  ∧ ((JSON_stringify offer_lobby = joined ∧ ∃ message data,
        Message 1 (Some offer_lobby) = Message 2 message
        ∧ frame_parse message = Some data ∧ is_join data
        ∧ members paired (room_of paired data) = [2])
     ∨ (JSON_stringify offer_lobby = ready ∧ ∃ ws message data,
          Message 1 (Some offer_lobby) = Message ws message
          ∧ frame_parse message = Some data ∧ is_join data
          ∧ 2 ≠ ws ∧ length (members paired (room_of paired data)) = 2)
     ∨ (JSON_stringify offer_lobby = leave
        ∧ ∃ ws, Message 1 (Some offer_lobby) = Close ws ∧ 2 ≠ ws)
     ∨ (∃ ws message data, Message 1 (Some offer_lobby) = Message ws message
          ∧ frame_parse message = Some data ∧ is_forward data
          ∧ JSON_stringify offer_lobby = JSON_stringify data ∧ 2 ≠ ws)).
Proof.
  assert (step frame_parse (Message 1 (Some offer_lobby)) paired
    = Returned paired [(2, JSON_stringify offer_lobby)]) as Hs
    by (vm_compute; reflexivity).
  split; [exact Hs|].
  apply (what_the_broker_sends frame_parse _ _ _ _ 2
           (JSON_stringify offer_lobby) Hs).
  by apply list_elem_of_singleton.
Defined.

Lemma only_open_members_are_reached_witness :
  step frame_parse (Message 1 (Some offer_lobby)) paired
    = Returned paired [(2, JSON_stringify offer_lobby)]
  ∧ (∃ k, 2 ∈ members paired k)
  ∧ (is_open paired 2 = true
     ∨ (JSON_stringify offer_lobby = joined
        ∧ ∃ message, Message 1 (Some offer_lobby) = Message 2 message)).
Proof.
  assert (step frame_parse (Message 1 (Some offer_lobby)) paired
    = Returned paired [(2, JSON_stringify offer_lobby)]) as Hs
    by (vm_compute; reflexivity).
  split; [exact Hs|].
  apply (only_open_members_are_reached frame_parse _ _ _ _ 2
           (JSON_stringify offer_lobby) Hs).
  by apply list_elem_of_singleton.
Defined.

Lemma object_room_is_always_new_witness :
  is_reference (property join_object "room")
  ∧ interpolation_throws (property join_object "room") = false
  ∧ ∃ st', on_message frame_parse 3 (Some join_object) paired
             = Returned st' [(3, joined)]
      ∧ rooms paired !! room_of paired join_object = None
      ∧ members st' (room_of paired join_object) = [3].
Proof.
  split; [exact I|]. split; [done|].
  apply (object_room_is_always_new frame_parse paired 3
           (Some join_object) join_object); done.
Defined.

Lemma members_have_joined_witness :
  run frame_parse pairing initial = Returned paired [(1, joined); (1, ready)]
  ∧ (∀ k c, c ∈ members paired k →
       (c, k) ∈ joins frame_parse pairing initial
       ∧ is_Some (roomId paired !! c))
  ∧ (∀ c k, roomId paired !! c = Some k →
       (c, k) ∈ joins frame_parse pairing initial
       ∧ is_Some (rooms paired !! k)).
Proof.
  assert (run frame_parse pairing initial
          = Returned paired [(1, joined); (1, ready)]) as Hrun
    by (vm_compute; reflexivity).
  split; [exact Hrun|].
  exact (members_have_joined frame_parse pairing paired _ Hrun).
Defined.

Lemma never_joined_never_reached_witness :
  run frame_parse pairing initial = Returned paired [(1, joined); (1, ready)]
  ∧ (∀ k, (3, k) ∉ joins frame_parse pairing initial)
  ∧ ∀ msg, (3, msg) ∉ [(1, joined); (1, ready)].
Proof.
  assert (run frame_parse pairing initial
          = Returned paired [(1, joined); (1, ready)]) as Hrun
    by (vm_compute; reflexivity).
  assert (∀ k, (3, k) ∉ joins frame_parse pairing initial) as Hnone.
  { change (joins frame_parse pairing initial)
      with [(1, str "lobby"); (2, str "lobby")].
    intros k H. apply elem_of_cons in H as [[=] | H].
    by apply list_elem_of_singleton in H. }
  split; [exact Hrun|]. split; [exact Hnone|].
  exact (never_joined_never_reached frame_parse pairing paired _ 3 Hrun Hnone).
Defined.

Lemma one_copy_per_connection_witness :
  run frame_parse pairing initial = Returned paired [(1, joined); (1, ready)]
  ∧ step frame_parse (Message 1 (Some offer_lobby)) paired
    = Returned paired [(2, JSON_stringify offer_lobby)]
  ∧ NoDup [(2, JSON_stringify offer_lobby)].*1.
Proof.
  assert (run frame_parse pairing initial
          = Returned paired [(1, joined); (1, ready)]) as Hrun
    by (vm_compute; reflexivity).
  assert (step frame_parse (Message 1 (Some offer_lobby)) paired
    = Returned paired [(2, JSON_stringify offer_lobby)]) as Hs
    by (vm_compute; reflexivity).
  split; [exact Hrun|]. split; [exact Hs|].
  exact (one_copy_per_connection frame_parse pairing paired _ _ _ _ Hrun Hs).
Defined.

Lemma registry_is_what_was_joined_witness :
  run frame_parse pairing initial = Returned paired [(1, joined); (1, ready)]
  ∧ (is_Some (rooms paired !! str "den") ↔
     ∃ c, (c, str "den") ∈ joins frame_parse pairing initial).
Proof.
  assert (run frame_parse pairing initial
          = Returned paired [(1, joined); (1, ready)]) as Hrun
    by (vm_compute; reflexivity).
  split; [exact Hrun|].
  exact (registry_is_what_was_joined frame_parse pairing paired _ (str "den") Hrun).
Defined.
